(** * Calculator agent: parser, evaluator, history store and orchestrator

    A shallow embedding of the query-interpretation pipeline of the
    calculator agent:

    - [parsers/natural_language_parser.py]  (module [Parser], over the
      regular expressions of modules [Regex] and [Syntax]),
    - [calculators/scientific_calculator.py] (module [Calculator]),
    - [src/memory_manager.py]                (module [Memory]),
    - [src/input_processor.py], [src/formatters.py], [src/agent.py]
      (module [Agent]).
    - [parsers/base_parser.py]               (module [BaseParser]),
    - [interfaces/terminal_interface.py]     (module [Terminal]).

    Modelling conventions.
    - Python [str] values are [string]s of bytes (the UTF-8 encoding of the
      text).  Character classes and case conversion are the ASCII ones;
      bytes above 127 are opaque: they are neither digits nor whitespace and
      have no case.
    - Python [float] values are exact rationals kept in lowest terms;
      rounding, overflow, infinities and NaN are outside the model.  Python
      [int] values are [Z].
    - Exceptions are values of type [exn]; a computation that may raise has
      type [res A]. *)

From Stdlib Require Import String Ascii DecimalString Bool Arith ZArith NArith.
From Stdlib Require Import QArith Qround Lia List.
From Stdlib Require DecimalPos.
Import ListNotations.

Local Close Scope Q_scope.
Local Open Scope string_scope.
Local Open Scope list_scope.

(** ** Characters and text *)

Module Text.

Definition text := list ascii.

Definition code (c : ascii) : N := N_of_ascii c.

(** [str.isdigit] restricted to ASCII: the characters [0-9]. *)
Definition is_digit (c : ascii) : bool :=
  ((48 <=? code c) && (code c <=? 57))%N.

(** [str.isspace] restricted to ASCII: TAB, LF, VT, FF, CR, the four
    separators 0x1C-0x1F and the space. *)
Definition is_space (c : ascii) : bool :=
  (((9 <=? code c) && (code c <=? 13))
   || ((28 <=? code c) && (code c <=? 31))
   || (code c =? 32))%N.

Definition is_upper (c : ascii) : bool :=
  ((65 <=? code c) && (code c <=? 90))%N.

Definition lower_char (c : ascii) : ascii :=
  if is_upper c then ascii_of_N (code c + 32) else c.

Definition of_string (s : string) : text := list_ascii_of_string s.
Definition to_string (t : text) : string := string_of_list_ascii t.

(** [str.lower] *)
Definition lower (s : string) : string :=
  to_string (map lower_char (of_string s)).

(** Value of a decimal digit. *)
Definition digit_val (c : ascii) : Z := Z.of_N (code c) - 48.

(** Value of a digit string read in base ten, most significant first. *)
Definition digits_val (t : text) : Z :=
  fold_left (fun acc c => 10 * acc + digit_val c)%Z t 0%Z.

(** [hay.startswith(needle)] *)
Fixpoint starts_with (needle hay : text) : bool :=
  match needle, hay with
  | [], _ => true
  | x :: needle', y :: hay' => Ascii.eqb x y && starts_with needle' hay'
  | _ :: _, [] => false
  end.

(** [needle in hay] for two strings. *)
Fixpoint contains (needle hay : text) : bool :=
  starts_with needle hay
  || match hay with
     | [] => false
     | _ :: hay' => contains needle hay'
     end.

End Text.

Import Text.

(** ** Regular expressions

    The fragment of Python's [re] syntax that the pattern table uses:
    literals, [\d], [\s], greedy [*] and [+] on a single character class,
    greedy [?], concatenation, ordered alternation and numbered capturing
    groups.  Matching is Python's backtracking search: alternatives and
    repetitions are explored in priority order and the first success wins.
    [rmatch] lists all the successes in that order. *)

Module Regex.

Inductive cclass : Type :=
| CDigit                (* \d *)
| CSpace                (* \s *)
| CChar (c : ascii).    (* a literal, compared under re.IGNORECASE *)

Inductive regex : Type :=
| Eps
| Chr (k : cclass)
| Star (k : cclass)
| Plus (k : cclass)
| Opt (r : regex)
| Seq (r1 r2 : regex)
| Alt (r1 r2 : regex)
| Group (i : nat) (r : regex).

Definition accepts (k : cclass) (c : ascii) : bool :=
  match k with
  | CDigit => is_digit c
  | CSpace => is_space c
  | CChar x => Ascii.eqb (lower_char x) (lower_char c)
  end.

(** Group bindings of a match in progress: [None] for a group that has not
    taken part. *)
Definition captures := nat -> option text.

Definition no_captures : captures := fun _ => None.

Definition bind (i : nat) (t : text) (c : captures) : captures :=
  fun j => if Nat.eqb j i then Some t else c j.

(** The part of [s] that was consumed to leave [rest]. *)
Definition consumed (s rest : text) : text :=
  firstn (length s - length rest) s.

(** All the ways a greedy repetition of class [k] can stop, longest first. *)
Fixpoint star_rests (k : cclass) (s : text) : list text :=
  match s with
  | c :: s' => if accepts k c then star_rests k s' ++ [s] else [s]
  | [] => [[]]
  end.

Fixpoint rmatch (r : regex) (s : text) (caps : captures)
  : list (text * captures) :=
  match r with
  | Eps => [(s, caps)]
  | Chr k =>
      match s with
      | c :: s' => if accepts k c then [(s', caps)] else []
      | [] => []
      end
  | Star k => map (fun s' => (s', caps)) (star_rests k s)
  | Plus k =>
      match s with
      | c :: s' =>
          if accepts k c then map (fun s' => (s', caps)) (star_rests k s')
          else []
      | [] => []
      end
  | Opt r1 => rmatch r1 s caps ++ [(s, caps)]
  | Seq r1 r2 =>
      flat_map (fun st => rmatch r2 (fst st) (snd st)) (rmatch r1 s caps)
  | Alt r1 r2 => rmatch r1 s caps ++ rmatch r2 s caps
  | Group i r1 =>
      map (fun st => (fst st, bind i (consumed s (fst st)) (snd st)))
          (rmatch r1 s caps)
  end.

(** Number of capturing groups of a pattern ([re.Pattern.groups]). *)
Fixpoint ngroups (r : regex) : nat :=
  match r with
  | Eps | Chr _ | Star _ | Plus _ => 0
  | Opt r1 => ngroups r1
  | Seq r1 r2 | Alt r1 r2 => ngroups r1 + ngroups r2
  | Group _ r1 => S (ngroups r1)
  end.

(** [re.search]: the first start position, from the left, with a match. *)
Fixpoint search (r : regex) (s : text) : option captures :=
  match rmatch r s no_captures with
  | (_, caps) :: _ => Some caps
  | [] =>
      match s with
      | [] => None
      | _ :: s' => search r s'
      end
  end.

(** [match.groups()] *)
Definition groups (r : regex) (caps : captures) : list (option text) :=
  map caps (seq 1 (ngroups r)).

(** *** Pattern combinators *)

Definition lit (c : ascii) : regex := Chr (CChar c).

(** [\d+] *)
Definition digits1 : regex := Plus CDigit.
(** [\d+\.?\d*] *)
Definition number : regex :=
  Seq (Plus CDigit) (Seq (Opt (lit ".")) (Star CDigit)).

End Regex.

Import Regex.

(** ** Compiling pattern sources

    [compile] reads the concrete syntax of a pattern, so that the pattern
    table below is the table of the source, character for character.
    Capturing groups are numbered by their opening parenthesis. *)

Module Syntax.

Definition parsed_regex := (regex * text * nat)%type.

Definition is_meta (c : ascii) : bool :=
  existsb (Ascii.eqb c)
    ["."; "^"; "$"; "*"; "+"; "?"; "{"; "}"; "["; "]"; "\"; "|"; "("; ")"]%char.

Definition seq_ (r1 r2 : regex) : regex :=
  match r2 with
  | Eps => r1
  | _ => Seq r1 r2
  end.

Definition escape (c : ascii) : option cclass :=
  if Ascii.eqb c "d" then Some CDigit
  else if Ascii.eqb c "s" then Some CSpace
  else if is_meta c || Ascii.eqb c "'" then Some (CChar c)
  else None.

(** A postfix quantifier applied to the atom [r]. *)
Definition quantify (r : regex) (s : text) : option (regex * text) :=
  match s with
  | "?"%char :: s' => Some (Opt r, s')
  | "*"%char :: s' =>
      match r with
      | Chr k => Some (Star k, s')
      | _ => None
      end
  | "+"%char :: s' =>
      match r with
      | Chr k => Some (Plus k, s')
      | _ => None
      end
  | _ => Some (r, s)
  end.

Definition close_paren (p : option parsed_regex) (wrap : regex -> regex)
  : option parsed_regex :=
  match p with
  | Some (r, ")"%char :: s', n) => Some (wrap r, s', n)
  | _ => None
  end.

Fixpoint p_alt (fuel : nat) (s : text) (n : nat) : option parsed_regex :=
  match fuel with
  | O => None
  | S f =>
      match p_seq f s n with
      | Some (r1, "|"%char :: s1, n1) =>
          match p_alt f s1 n1 with
          | Some (r2, s2, n2) => Some (Alt r1 r2, s2, n2)
          | None => None
          end
      | other => other
      end
  end
with p_seq (fuel : nat) (s : text) (n : nat) : option parsed_regex :=
  match fuel with
  | O => None
  | S f =>
      match s with
      | [] | "|"%char :: _ | ")"%char :: _ => Some (Eps, s, n)
      | _ =>
          match p_atom f s n with
          | Some (r1, s1, n1) =>
              match quantify r1 s1 with
              | Some (q1, s2) =>
                  match p_seq f s2 n1 with
                  | Some (r2, s3, n2) => Some (seq_ q1 r2, s3, n2)
                  | None => None
                  end
              | None => None
              end
          | None => None
          end
      end
  end
with p_atom (fuel : nat) (s : text) (n : nat) : option parsed_regex :=
  match fuel with
  | O => None
  | S f =>
      match s with
      | "("%char :: "?"%char :: ":"%char :: s' =>
          close_paren (p_alt f s' n) (fun r => r)
      | "("%char :: s' =>
          close_paren (p_alt f s' (S n)) (Group (S n))
      | "\"%char :: c :: s' =>
          match escape c with
          | Some k => Some (Chr k, s', n)
          | None => None
          end
      | c :: s' => if is_meta c then None else Some (Chr (CChar c), s', n)
      | [] => None
      end
  end.

(** [re.compile]; [None] stands for a pattern outside the fragment. *)
Definition compile (src : string) : option regex :=
  let s := of_string src in
  match p_alt (3 * length s + 3) s 0 with
  | Some (r, [], _) => Some r
  | _ => None
  end.

Fixpoint compile_all (srcs : list string) : option (list regex) :=
  match srcs with
  | [] => Some []
  | src :: rest =>
      match compile src, compile_all rest with
      | Some r, Some rs => Some (r :: rs)
      | _, _ => None
      end
  end.

Fixpoint compile_table (tbl : list (string * list string))
  : option (list (string * list regex)) :=
  match tbl with
  | [] => Some []
  | (op, srcs) :: rest =>
      match compile_all srcs, compile_table rest with
      | Some rs, Some t => Some ((op, rs) :: t)
      | _, _ => None
      end
  end.

End Syntax.

(** ** Python values and exceptions *)

Module Py.

(** A number: a [float] (exact rational in lowest terms) or an [int]. *)
Inductive num : Type :=
| PyFloat (q : Q)
| PyInt (z : Z).

Inductive exn : Type :=
| ValueError (msg : string)
| ZeroDivisionError (msg : string)
| OtherError (msg : string).   (* any other subclass of Exception *)

(** [str(e)] *)
Definition exn_message (e : exn) : string :=
  match e with
  | ValueError m | ZeroDivisionError m | OtherError m => m
  end.

Inductive res (A : Type) : Type :=
| Ok (a : A)
| Raise (e : exn).
Arguments Ok {A} a.
Arguments Raise {A} e.

Definition bind {A B : Type} (m : res A) (f : A -> res B) : res B :=
  match m with
  | Ok a => f a
  | Raise e => Raise e
  end.

Notation "x <- m ;; k" := (bind m (fun x => k))
  (at level 61, m at next level, right associativity).

(** The rational value of a number. *)
Definition value (x : num) : Q :=
  match x with
  | PyFloat q => q
  | PyInt z => inject_Z z
  end.

(** [int(x)]: truncation towards zero. *)
Definition to_int (x : num) : Z :=
  match x with
  | PyInt z => z
  | PyFloat q => if Qle_bool 0%Q q then Qfloor q else Qceiling q
  end.

Definition num_eqb (x y : num) : bool := Qeq_bool (value x) (value y).
Definition num_ltb (x y : num) : bool :=
  Qle_bool (value x) (value y) && negb (Qeq_bool (value x) (value y)).
Definition num_leb (x y : num) : bool := Qle_bool (value x) (value y).

(** Unsigned decimal literal: [digits], [digits.], [digits.digits] or
    [.digits]. *)
Fixpoint span_digits (t : text) : text * text :=
  match t with
  | c :: t' =>
      if is_digit c then let (ds, rest) := span_digits t' in (c :: ds, rest)
      else ([], t)
  | [] => ([], [])
  end.

Definition decimal (ip fp : text) : Q :=
  Qred (Qmake (digits_val (ip ++ fp)) (Z.to_pos (10 ^ Z.of_nat (length fp)))).

Definition unsigned_float (t : text) : option Q :=
  let (ip, rest) := span_digits t in
  match rest with
  | [] => match ip with [] => None | _ => Some (decimal ip []) end
  | "."%char :: fp =>
      if forallb is_digit fp
      then match ip, fp with [], [] => None | _, _ => Some (decimal ip fp) end
      else None
  | _ => None
  end.

(** [float(s)] on the decimal literals without exponent: an optional sign
    followed by an unsigned decimal.  Every other string raises
    [ValueError] in the model; the strings that Python accepts beyond these
    (surrounding whitespace, exponents, underscores, [inf], [nan]) are never
    produced by the pattern table. *)
Definition float_of_text (t : text) : res num :=
  let unsigned (sign : Q -> Q) (u : text) :=
    match unsigned_float u with
    | Some q => Ok (PyFloat (sign q))
    | None => Raise (ValueError "could not convert string to float")
    end in
  match t with
  | "-"%char :: u => unsigned Qopp u
  | "+"%char :: u => unsigned (fun q => q) u
  | _ => unsigned (fun q => q) t
  end.

End Py.

Import Py.

(** ** The natural-language parser *)

Module Parser.

(** [self.patterns], in declaration order. *)
Definition pattern_sources : list (string * list string) :=
  [ ("add",
      [ "(?:what\'?s?|calculate|compute)?\s*(\d+\.?\d*)\s*(?:\+|plus|add)\s*(\d+\.?\d*)";
        "(?:add|sum)\s*(\d+\.?\d*)\s*(?:and|to)\s*(\d+\.?\d*)" ]);
    ("subtract",
      [ "(?:what\'?s?|calculate)?\s*(\d+\.?\d*)\s*(?:-|minus|subtract)\s*(\d+\.?\d*)";
        "(?:subtract)\s*(\d+\.?\d*)\s*from\s*(\d+\.?\d*)" ]);
    ("multiply",
      [ "(?:what\'?s?|calculate)?\s*(\d+\.?\d*)\s*(?:\*|×|times|multiply)\s*(\d+\.?\d*)";
        "(?:multiply)\s*(\d+\.?\d*)\s*(?:by|and)\s*(\d+\.?\d*)" ]);
    ("divide",
      [ "(?:what\'?s?|calculate)?\s*(\d+\.?\d*)\s*(?:/|÷|divided by|divide)\s*(\d+\.?\d*)";
        "(?:divide)\s*(\d+\.?\d*)\s*by\s*(\d+\.?\d*)" ]);
    ("power",
      [ "(\d+\.?\d*)\s*(?:to the power of|raised to|power)\s*(\d+\.?\d*)";
        "(\d+\.?\d*)\s*\*\*\s*(\d+\.?\d*)" ]);
    ("square",
      [ "(\d+\.?\d*)\s*squared";
        "square\s*(?:of)?\s*(\d+\.?\d*)" ]);
    ("cube",
      [ "(\d+\.?\d*)\s*cubed";
        "cube\s*(?:of)?\s*(\d+\.?\d*)" ]);
    ("sqrt",
      [ "(?:square root|sqrt)\s*(?:of)?\s*(\d+\.?\d*)";
        "√\s*(\d+\.?\d*)" ]);
    ("cbrt",
      [ "(?:cube root|cbrt)\s*(?:of)?\s*(\d+\.?\d*)" ]);
    ("sin",
      [ "(?:sin|sine)\s*(?:of)?\s*(\d+\.?\d*)\s*(?:degrees?)?" ]);
    ("cos",
      [ "(?:cos|cosine)\s*(?:of)?\s*(\d+\.?\d*)\s*(?:degrees?)?" ]);
    ("tan",
      [ "(?:tan|tangent)\s*(?:of)?\s*(\d+\.?\d*)\s*(?:degrees?)?" ]);
    ("log",
      [ "(?:log|logarithm)\s*(?:of)?\s*(\d+\.?\d*)" ]);
    ("ln",
      [ "(?:ln|natural log)\s*(?:of)?\s*(\d+\.?\d*)" ]);
    ("factorial",
      [ "(\d+)\s*factorial";
        "factorial\s*(?:of)?\s*(\d+)" ]) ].

(** The compiled table. *)
Definition patterns : list (string * list regex) :=
  Eval vm_compute in
    match Syntax.compile_table pattern_sources with
    | Some t => t
    | None => []
    end.

Record parsed_data : Type := {
  operation : string;
  operands : list num;
  original_text : string
}.

(** [g] is kept by [if g]: neither [None] nor the empty string. *)
Definition truthy (g : option text) : bool :=
  match g with
  | Some (_ :: _) => true
  | _ => false
  end.

(** [[float(g) for g in match.groups() if g]] *)
Fixpoint floats (gs : list (option text)) : res (list num) :=
  match gs with
  | [] => Ok []
  | g :: rest =>
      if truthy g then
        x <- float_of_text (match g with Some t => t | None => [] end) ;;
        xs <- floats rest ;;
        Ok (x :: xs)
      else floats rest
  end.

Definition _handle_special_cases (operation : string) (operands : list num)
  : list num :=
  if String.eqb operation "square" && Nat.eqb (length operands) 1
  then [nth 0 operands (PyInt 0); PyInt 2]
  else if String.eqb operation "cube" && Nat.eqb (length operands) 1
  then [nth 0 operands (PyInt 0); PyInt 3]
  else operands.

(** The inner loop of [parse]: the patterns of one operation, in order.
    [None] when none of them matches. *)
Fixpoint parse_patterns (operation : string) (pats : list regex)
    (text_lower : text) (input_text : string) : res (option parsed_data) :=
  match pats with
  | [] => Ok None
  | pattern :: rest =>
      match search pattern text_lower with
      | Some m =>
          operands <- floats (groups pattern m) ;;
          Ok (Some {| operation := operation;
                      operands := _handle_special_cases operation operands;
                      original_text := input_text |})
      | None => parse_patterns operation rest text_lower input_text
      end
  end.

(** The outer loop of [parse]: the operations of the table, in order. *)
Fixpoint parse_table (tbl : list (string * list regex))
    (text_lower : text) (input_text : string) : res (option parsed_data) :=
  match tbl with
  | [] => Ok None
  | (operation, pats) :: rest =>
      r <- parse_patterns operation pats text_lower input_text ;;
      match r with
      | Some d => Ok (Some d)
      | None => parse_table rest text_lower input_text
      end
  end.

Definition parse (input_text : string) : res (option parsed_data) :=
  let text_lower := of_string (lower input_text) in
  parse_table patterns text_lower input_text.

(** [can_handle] *)
Definition can_handle (input_text : string) : bool :=
  let text_lower := of_string (lower input_text) in
  existsb (fun entry =>
             existsb (fun pattern =>
                        match search pattern text_lower with
                        | Some _ => true
                        | None => false
                        end) (snd entry)) patterns.

End Parser.

(** ** Library functions

    The numeric library ([math], [sympy]) and the rendering of floats are
    not part of the program.  Their results on rationals are taken as
    given: a [Lib] supplies them, and a call may raise. *)

Record Lib : Type := {
  float_pow : Q -> Q -> res Q;      (* x ** y for a non-integral y *)
  sympy_sqrt : Q -> res Q;
  sympy_cbrt : Q -> res Q;
  math_radians : Q -> res Q;
  math_sin : Q -> res Q;
  math_cos : Q -> res Q;
  math_tan : Q -> res Q;
  math_log10 : Q -> res Q;
  math_log : Q -> res Q;
  float_str : Q -> string;          (* str(x) for a float x *)
  float_round : Q -> Z -> Q         (* round(x, n) for a float x *)
}.

(** A library none of whose functions is available: every call raises. *)
Definition no_lib : Lib :=
  let unavailable := fun _ : Q => @Raise Q (OtherError "unavailable") in
  {| float_pow := fun _ => unavailable;
     sympy_sqrt := unavailable; sympy_cbrt := unavailable;
     math_radians := unavailable; math_sin := unavailable;
     math_cos := unavailable; math_tan := unavailable;
     math_log10 := unavailable; math_log := unavailable;
     float_str := fun _ => "";
     float_round := fun q _ => q |}.

(** ** The scientific calculator *)

Module Calculator.

(** [sympy.factorial] on the non-negative integers. *)
Fixpoint factorial_nat (n : nat) : Z :=
  match n with
  | O => 1
  | S k => Z.of_nat (S k) * factorial_nat k
  end.

Definition sympy_factorial (n : Z) : Z := factorial_nat (Z.to_nat n).


Definition is_integral (q : Q) : bool := Qeq_bool q (inject_Z (Qfloor q)).

Definition supported_operations : list string :=
  [ "add"; "subtract"; "multiply"; "divide";
    "power"; "square"; "cube";
    "sqrt"; "cbrt";
    "sin"; "cos"; "tan";
    "log"; "ln";
    "factorial" ].

Definition supports_operation (operation : string) : bool :=
  existsb (String.eqb operation) supported_operations.

Section WithLib.

Variable L : Lib.

(** [x ** y].  An integral exponent is computed exactly; a zero base with a
    negative exponent raises [ZeroDivisionError]; the other cases are the
    library's. *)
Definition pow (x y : num) : res Q :=
  let b := value x in
  let e := value y in
  if is_integral e then
    if Qle_bool 0%Q e then Ok (Qpower b (Qfloor e))
    else if Qeq_bool b 0%Q
         then Raise (ZeroDivisionError "0.0 cannot be raised to a negative power")
         else Ok (Qpower b (Qfloor e))
  else float_pow L b e.

Definition _add (operands : list num) : res num :=
  if (length operands <? 2)%nat
  then Raise (ValueError "Addition requires at least 2 operands")
  else Ok (PyFloat (Qred (fold_left Qplus (map value operands) 0%Q))).

Definition _subtract (operands : list num) : res num :=
  match operands with
  | [a; b] => Ok (PyFloat (Qred (value a - value b)%Q))
  | _ => Raise (ValueError "Subtraction requires exactly 2 operands")
  end.

Definition _multiply (operands : list num) : res num :=
  if (length operands <? 2)%nat
  then Raise (ValueError "Multiplication requires at least 2 operands")
  else Ok (PyFloat (Qred (fold_left Qmult (map value operands) 1%Q))).

Definition _divide (operands : list num) : res num :=
  match operands with
  | [a; b] =>
      if num_eqb b (PyInt 0)
      then Raise (ZeroDivisionError "Cannot divide by zero")
      else Ok (PyFloat (Qred (value a / value b)%Q))
  | _ => Raise (ValueError "Division requires exactly 2 operands")
  end.

Definition _power (operands : list num) : res num :=
  match operands with
  | [a; b] => q <- pow a b ;; Ok (PyFloat (Qred q))
  | _ => Raise (ValueError "Power operation requires exactly 2 operands")
  end.

Definition _sqrt (operands : list num) : res num :=
  match operands with
  | [a] =>
      if num_ltb a (PyInt 0)
      then Raise (ValueError "Cannot calculate square root of negative number")
      else q <- sympy_sqrt L (value a) ;; Ok (PyFloat (Qred q))
  | _ => Raise (ValueError "Square root requires exactly 1 operand")
  end.

Definition _cbrt (operands : list num) : res num :=
  match operands with
  | [a] => q <- sympy_cbrt L (value a) ;; Ok (PyFloat (Qred q))
  | _ => Raise (ValueError "Cube root requires exactly 1 operand")
  end.

(** [float(f(math.radians(a)))] for a trigonometric [f]. *)
Definition trig (f : Q -> res Q) (a : num) : res num :=
  radians <- math_radians L (value a) ;;
  q <- f radians ;;
  Ok (PyFloat (Qred q)).

Definition _sin (operands : list num) : res num :=
  match operands with
  | [a] => trig (math_sin L) a
  | _ => Raise (ValueError "Sine requires exactly 1 operand")
  end.

Definition _cos (operands : list num) : res num :=
  match operands with
  | [a] => trig (math_cos L) a
  | _ => Raise (ValueError "Cosine requires exactly 1 operand")
  end.

Definition _tan (operands : list num) : res num :=
  match operands with
  | [a] => trig (math_tan L) a
  | _ => Raise (ValueError "Tangent requires exactly 1 operand")
  end.

Definition _log (operands : list num) : res num :=
  match operands with
  | [a] =>
      if num_leb a (PyInt 0)
      then Raise (ValueError "Cannot calculate logarithm of non-positive number")
      else q <- math_log10 L (value a) ;; Ok (PyFloat (Qred q))
  | _ => Raise (ValueError "Logarithm requires exactly 1 operand")
  end.

Definition _ln (operands : list num) : res num :=
  match operands with
  | [a] =>
      if num_leb a (PyInt 0)
      then Raise (ValueError
                    "Cannot calculate natural logarithm of non-positive number")
      else q <- math_log L (value a) ;; Ok (PyFloat (Qred q))
  | _ => Raise (ValueError "Natural logarithm requires exactly 1 operand")
  end.

Definition _factorial (operands : list num) : res num :=
  match operands with
  | [a] =>
      if num_ltb a (PyInt 0)
      then Raise (ValueError "Cannot calculate factorial of negative number")
      else if negb (num_eqb a (PyInt (to_int a)))
      then Raise (ValueError "Factorial requires an integer")
      else Ok (PyInt (sympy_factorial (to_int a)))
  | _ => Raise (ValueError "Factorial requires exactly 1 operand")
  end.

(** [calculate(parsed_data)] *)
Definition calculate (parsed_data : Parser.parsed_data) : res num :=
  let operation := Parser.operation parsed_data in
  let operands := Parser.operands parsed_data in
  if String.eqb operation "" then Raise (ValueError "No operation specified")
  else if negb (supports_operation operation)
  then Raise (ValueError ("Operation '" ++ operation ++ "' is not supported"))
  else if String.eqb operation "add" then _add operands
  else if String.eqb operation "subtract" then _subtract operands
  else if String.eqb operation "multiply" then _multiply operands
  else if String.eqb operation "divide" then _divide operands
  else if existsb (String.eqb operation) ["power"; "square"; "cube"]
  then _power operands
  else if String.eqb operation "sqrt" then _sqrt operands
  else if String.eqb operation "cbrt" then _cbrt operands
  else if String.eqb operation "sin" then _sin operands
  else if String.eqb operation "cos" then _cos operands
  else if String.eqb operation "tan" then _tan operands
  else if String.eqb operation "log" then _log operands
  else if String.eqb operation "ln" then _ln operands
  else if String.eqb operation "factorial" then _factorial operands
  else Raise (ValueError ("Operation '" ++ operation ++ "' not implemented")).

End WithLib.

End Calculator.

(** ** The history store *)

Module Memory.

Record entry : Type := {
  query : string;
  result : string;
  operation_type : string;
  timestamp : string
}.

Record MemoryManager : Type := {
  _history : list entry;
  _max_history : Z
}.

(** [MemoryManager(max_history)] *)
Definition init (max_history : Z) : MemoryManager :=
  {| _history := []; _max_history := max_history |}.

(** [lst[start:]] *)
Definition slice_from {A : Type} (start : Z) (l : list A) : list A :=
  let n := Z.of_nat (length l) in
  let lo := if (start <? 0)%Z then Z.max 0 (start + n) else Z.min start n in
  skipn (Z.to_nat lo) l.

(** [add]; [now] is the reading of the clock, [datetime.now().isoformat()].
    [tl] is [pop(0)] on a list that holds at least the new entry. *)
Definition add (m : MemoryManager) (query result operation_type now : string)
  : MemoryManager :=
  let e := {| query := query; result := result;
              operation_type := operation_type; timestamp := now |} in
  let h := _history m ++ [e] in
  {| _history := if (Z.of_nat (length h) >? _max_history m)%Z then tl h else h;
     _max_history := _max_history m |}.

Definition get_history (m : MemoryManager) (limit : option Z) : list entry :=
  match limit with
  | None => rev (_history m)
  | Some n => rev (slice_from (- n) (_history m))
  end.

Definition get_last (m : MemoryManager) : option entry :=
  match _history m with
  | [] => None
  | h => Some (last h {| query := ""; result := ""; operation_type := "";
                         timestamp := "" |})
  end.

Definition clear (m : MemoryManager) : MemoryManager :=
  {| _history := []; _max_history := _max_history m |}.

Definition count (m : MemoryManager) : Z := Z.of_nat (length (_history m)).

(** [search]: the loop over [self._history] keeps the matching entries in
    the order of the store. *)
Definition search (m : MemoryManager) (keyword : string) : list entry :=
  let keyword_lower := of_string (lower keyword) in
  filter (fun e =>
            contains keyword_lower (of_string (lower (query e)))
            || contains keyword_lower (of_string (lower (result e))))
         (_history m).

(** An operation of the store, for sequences of operations. *)
Inductive op : Type :=
| Add (query result operation_type now : string)
| Clear.

Definition step (m : MemoryManager) (o : op) : MemoryManager :=
  match o with
  | Add q r t now => add m q r t now
  | Clear => clear m
  end.

Definition run (m : MemoryManager) (ops : list op) : MemoryManager :=
  fold_left step ops m.

End Memory.

(** ** Input processor, formatter and agent *)

Module Agent.

Import Memory.

(** *** [InputProcessor] *)

Fixpoint lstrip (t : text) : text :=
  match t with
  | c :: t' => if is_space c then lstrip t' else t
  | [] => []
  end.

(** [str.strip()] *)
Definition strip (t : text) : text := rev (lstrip (rev (lstrip t))).

(** [re.sub(r'\s+', ' ', text)]: [in_run] records that the previous
    character was whitespace. *)
Fixpoint collapse (in_run : bool) (t : text) : text :=
  match t with
  | c :: t' =>
      if is_space c
      then if in_run then collapse true t' else " "%char :: collapse true t'
      else c :: collapse false t'
  | [] => []
  end.

Definition _clean (s : string) : string :=
  to_string (collapse false (strip (of_string s))).

Definition _validate (s : string) : bool := negb (String.eqb s "").

Definition process (raw_input : string) : option string :=
  if String.eqb raw_input "" then None
  else
    let cleaned := _clean raw_input in
    if negb (_validate cleaned) then None else Some cleaned.

(** [is_exit_command]: [text.lower().strip() in exit_commands] *)
Definition is_exit_command (s : string) : bool :=
  existsb (String.eqb (to_string (strip (of_string (lower s)))))
    ["quit"; "exit"; "bye"; "goodbye"].

(** *** [OutputFormatter] *)

Definition nl : string := String (ascii_of_nat 10) "".
Definition dq : string := String (ascii_of_nat 34) "".
(** The seven bytes that stand for the bullet in the source file. *)
Definition bullet : string :=
  to_string (map ascii_of_nat [195; 162; 226; 130; 172; 194; 162]).
(** The eight bytes that stand for the horizontal rule character. *)
Definition rule_char : string :=
  to_string (map ascii_of_nat [195; 162; 226; 128; 157; 226; 130; 172]).

(** [str(n)] for an [int]. *)
Definition str_int (z : Z) : string :=
  DecimalString.NilZero.string_of_int (Z.to_int z).

Fixpoint drop_while (p : ascii -> bool) (t : text) : text :=
  match t with
  | c :: t' => if p c then drop_while p t' else t
  | [] => []
  end.

(** [s.rstrip(c)] *)
Definition rstrip (c : ascii) (s : string) : string :=
  to_string (rev (drop_while (Ascii.eqb c) (rev (of_string s)))).

Fixpoint repeat_string (s : string) (n : nat) : string :=
  match n with
  | O => ""
  | S k => s ++ repeat_string s k
  end.

Definition format_error (error_message : string) : string :=
  "Error: " ++ error_message.

Definition format_parsing_error : string :=
  nl ++ "I couldn't understand that question. Please try again." ++ nl
  ++ nl ++ "Examples of questions I can answer:" ++ nl
  ++ "  " ++ bullet ++ " " ++ dq ++ "What's 2 + 2?" ++ dq ++ nl
  ++ "  " ++ bullet ++ " " ++ dq ++ "Calculate square root of 144" ++ dq ++ nl
  ++ "  " ++ bullet ++ " " ++ dq ++ "What's 5 squared?" ++ dq ++ nl
  ++ nl ++ "Type 'help' for more examples." ++ nl.

(** [enumerate(history, 1)] rendered line by line. *)
Fixpoint history_lines (i : Z) (history : list entry) : string :=
  match history with
  | [] => ""
  | e :: rest =>
      str_int i ++ ". " ++ query e ++ " = " ++ result e ++ nl
      ++ history_lines (i + 1) rest
  end.

Definition format_history (history : list entry) : string :=
  match history with
  | [] => "No calculation history yet."
  | _ =>
      nl ++ "Calculation History:" ++ nl
      ++ repeat_string rule_char 60 ++ nl
      ++ history_lines 1 history
  end.

Section WithLib.

Variable L : Lib.

(** The static text of [format_help] is not interpreted. *)
Variable help_text : string.

Definition format_help : string := help_text.

(** [str(x)] for a number. *)
Definition str (x : num) : string :=
  match x with
  | PyFloat q => float_str L q
  | PyInt z => str_int z
  end.

Definition _format_number (number : num) : string :=
  match number with
  | PyFloat q =>
      if Calculator.is_integral q then str_int (to_int number)
      else rstrip "." (rstrip "0" (float_str L (float_round L q 6)))
  | PyInt z => rstrip "." (rstrip "0" (str_int z))
  end.

Definition format_result (result : num) (query : string) : string :=
  "The answer is " ++ _format_number result.

(** *** [CalculatorAgent.process_query]

    The store is the only mutable state of the agent; [now] is the reading
    of the clock used if an entry is recorded.  The result is a [res]: an
    exception that left [process_query] would be a [Raise]. *)
Definition process_query (memory : MemoryManager) (now : string)
    (user_input : string) : res string * MemoryManager :=
  match process user_input with
  | None | Some "" => (Ok (format_error "Invalid input"), memory)
  | Some processed_input =>
      if String.eqb (lower processed_input) "help"
      then (Ok format_help, memory)
      else if String.eqb (lower processed_input) "history"
      then (Ok (format_history (get_history memory (Some 10%Z))), memory)
      else if String.eqb (lower processed_input) "clear"
      then (Ok "History cleared!", clear memory)
      else
        match Parser.parse processed_input with
        | Raise e =>
            (Ok (format_error ("Parsing error: " ++ exn_message e)), memory)
        | Ok None => (Ok format_parsing_error, memory)
        | Ok (Some parsed_data) =>
            match Calculator.calculate L parsed_data with
            | Raise (ZeroDivisionError _) =>
                (Ok (format_error "Cannot divide by zero"), memory)
            | Raise (ValueError msg) => (Ok (format_error msg), memory)
            | Raise (OtherError msg) =>
                (Ok (format_error ("Calculation error: " ++ msg)), memory)
            | Ok result =>
                let operation_type := Parser.operation parsed_data in
                (Ok (format_result result user_input),
                 add memory user_input (str result) operation_type now)
            end
        end
  end.

End WithLib.

End Agent.

(** ** The helper of the base parser *)

Module BaseParser.

(** [re.findall] for a pattern without groups: the matches found from left
    to right, each search starting where the previous match ended.  After
    an empty match the search moves on by one character.  [fuel] bounds the
    number of start positions tried. *)
Fixpoint findall_from (fuel : nat) (r : regex) (s : text) : list text :=
  match fuel with
  | O => []
  | S fuel' =>
      match rmatch r s no_captures with
      | (rest, _) :: _ =>
          let found := consumed s rest in
          match found, s with
          | [], [] => [found]
          | [], _ :: s' => found :: findall_from fuel' r s'
          | _ :: _, _ => found :: findall_from fuel' r rest
          end
      | [] =>
          match s with
          | [] => []
          | _ :: s' => findall_from fuel' r s'
          end
      end
  end.

Definition findall (r : regex) (s : text) : list text :=
  findall_from (S (length s)) r s.

(** The pattern of [_extract_numbers]. *)
Definition number_source : string := "-?\d+\.?\d*".

Definition number_pattern : regex :=
  Eval vm_compute in
    match Syntax.compile number_source with
    | Some r => r
    | None => Eps
    end.

(** [[float(num) for num in matches]] *)
Fixpoint floats_of (matches : list text) : res (list num) :=
  match matches with
  | [] => Ok []
  | t :: rest =>
      x <- float_of_text t ;;
      xs <- floats_of rest ;;
      Ok (x :: xs)
  end.

Definition _extract_numbers (s : string) : res (list num) :=
  floats_of (findall number_pattern (of_string s)).

End BaseParser.

(** ** The terminal interface *)

Module Terminal.

Import Memory Agent.

Section WithLib.

Variable L : Lib.

(** The static texts of [format_help], [format_welcome] and
    [format_goodbye] are not interpreted. *)
Variable help_text welcome_text goodbye_text : string.

(** [display_output]: the two lines it prints. *)
Definition display_output (message : string) : list string :=
  [("Agent: " ++ message)%string; ""].

(** The loop of [run].  [inputs] are the lines typed by the user, each with
    the reading of the clock when it is processed; at the end of the input
    [get_input] returns "quit", which is an exit command.  The result is the
    list of the printed texts and the store at the end of the session.
    Interrupts from the keyboard are not modelled. *)
Fixpoint run_loop (memory : MemoryManager) (inputs : list (string * string))
  : list string * MemoryManager :=
  match inputs with
  | [] => (display_output goodbye_text, memory)
  | (now, user_input) :: rest =>
      if is_exit_command user_input
      then (display_output goodbye_text, memory)
      else
        match process_query L help_text memory now user_input with
        | (Ok response, memory') =>
            let (printed, final) := run_loop memory' rest in
            (display_output response ++ printed, final)
        | (Raise e, memory') =>
            let (printed, final) := run_loop memory' rest in
            (display_output ("Error: " ++ exn_message e)%string ++ printed,
             final)
        end
  end.

(** [run] *)
Definition run (memory : MemoryManager) (inputs : list (string * string))
  : list string * MemoryManager :=
  let (printed, final) := run_loop memory inputs in
  (welcome_text :: printed, final).

End WithLib.

End Terminal.

(** ** Reference definitions used by the statements *)

Module Spec.

Import Memory.

(** The last [n] elements of a list. *)
Definition lastn {A : Type} (n : nat) (l : list A) : list A :=
  skipn (length l - n) l.

(** The unbounded log of a sequence of store operations: every recorded
    entry since the last [Clear], oldest first. *)
Definition log_step (log : list entry) (o : op) : list entry :=
  match o with
  | Add q r t now =>
      log ++ [{| query := q; result := r; operation_type := t;
                 timestamp := now |}]
  | Clear => []
  end.

Definition inserted (ops : list op) : list entry := fold_left log_step ops [].

(** Recording an entry. *)
Definition record_entry (e : entry) : op :=
  Add (query e) (result e) (operation_type e) (timestamp e).

(** The input, once cleaned, is one of the built-in commands. *)
Definition is_command (processed_input : string) : bool :=
  existsb (String.eqb (lower processed_input)) ["help"; "history"; "clear"].

End Spec.

(** ** Shapes of captured text *)

Module Shape.

(** A non-empty string of decimal digits: what [\d+] consumes. *)
Definition all_digits (t : text) : bool :=
  match t with
  | [] => false
  | _ => forallb is_digit t
  end.

(** An unsigned decimal: digits, then possibly a point and further digits;
    what [\d+\.?\d*] consumes.  There is no sign and no exponent. *)
Definition unsigned_decimal (t : text) : bool :=
  let (ip, rest) := span_digits t in
  match ip, rest with
  | [], _ => false
  | _, [] => true
  | _, "."%char :: fp => forallb is_digit fp
  | _, _ => false
  end.

Fixpoint regex_eqb (r1 r2 : regex) : bool :=
  match r1, r2 with
  | Eps, Eps => true
  | Chr k1, Chr k2 | Star k1, Star k2 | Plus k1, Plus k2 =>
      match k1, k2 with
      | CDigit, CDigit | CSpace, CSpace => true
      | CChar a, CChar b => Ascii.eqb a b
      | _, _ => false
      end
  | Opt a, Opt b => regex_eqb a b
  | Seq a1 a2, Seq b1 b2 | Alt a1 a2, Alt b1 b2 =>
      regex_eqb a1 b1 && regex_eqb a2 b2
  | Group i a, Group j b => Nat.eqb i j && regex_eqb a b
  | _, _ => false
  end.

(** Every capturing group of [r] has a body accepted by [ok]. *)
Fixpoint bodies_ok (ok : regex -> bool) (r : regex) : bool :=
  match r with
  | Eps | Chr _ | Star _ | Plus _ => true
  | Opt r1 => bodies_ok ok r1
  | Seq r1 r2 | Alt r1 r2 => bodies_ok ok r1 && bodies_ok ok r2
  | Group _ r1 => ok r1 && bodies_ok ok r1
  end.

(** Group [i] takes part in every match of [r]. *)
Fixpoint binds (r : regex) (i : nat) : bool :=
  match r with
  | Eps | Chr _ | Star _ | Plus _ | Opt _ => false
  | Seq r1 r2 => binds r1 i || binds r2 i
  | Alt r1 r2 => binds r1 i && binds r2 i
  | Group j r1 => Nat.eqb i j || binds r1 i
  end.

Definition binds_all (r : regex) : bool :=
  forallb (binds r) (seq 1 (ngroups r)).

Definition is_number_body (r : regex) : bool :=
  regex_eqb r number || regex_eqb r digits1.


(** A pattern whose groups all take part in every match and all capture an
    unsigned decimal. *)
Definition numeric_pattern (r : regex) : bool :=
  bodies_ok is_number_body r && binds_all r.


(** Every bound group holds text of shape [Q]. *)
Definition caps_inv (Q : text -> Prop) (c : captures) : Prop :=
  forall i t, c i = Some t -> Q t.

End Shape.

(** ** Further notions used by the statements *)

Module Notions.


(** A string of whitespace only (possibly empty). *)
Definition blank (t : text) : bool := forallb is_space t.

(** The normal form of a cleaned input: no whitespace at either end, no
    whitespace character but the space, and no two spaces in a row. *)
Fixpoint single_spaced (t : text) : bool :=
  match t with
  | [] => true
  | c :: t' =>
      (if is_space c
       then Ascii.eqb c " "
            && match t' with
               | [] => true
               | d :: _ => negb (is_space d)
               end
       else true)
      && single_spaced t'
  end.

Definition clean_form (t : text) : bool :=
  single_spaced t
  && match t with
     | [] => true
     | c :: _ => negb (is_space c)
     end
  && match rev t with
     | [] => true
     | c :: _ => negb (is_space c)
     end.



(** The number of operands each operation of the calculator accepts. *)
Definition arity_ok (operation : string) (n : nat) : bool :=
  if existsb (String.eqb operation) ["add"; "multiply"] then (2 <=? n)%nat
  else if existsb (String.eqb operation)
            ["subtract"; "divide"; "power"; "square"; "cube"]
  then (n =? 2)%nat
  else (n =? 1)%nat.

(** Some pattern of the list matches the text. *)
Definition any_match (pats : list regex) (s : text) : bool :=
  existsb (fun p => match search p s with Some _ => true | None => false end)
          pats.

(** An unsigned decimal, possibly after a minus sign: what the pattern of
    [_extract_numbers] consumes. *)
Definition signed_decimal (t : text) : Prop :=
  Shape.unsigned_decimal t = true
  \/ exists u, t = "-"%char :: u /\ Shape.unsigned_decimal u = true.

End Notions.

(** * Properties *)

(** ** The history store *)

Section HistoryStore.

Import Memory Spec.

Lemma tl_skipn {A : Type} (k : nat) (l : list A) :
  tl (skipn k l) = skipn (S k) l.
Proof.
  revert l; induction k as [|k IH]; intros [|x l]; simpl; auto.
Qed.

Lemma lastn_length {A : Type} (n : nat) (l : list A) :
  length (lastn n l) = Nat.min n (length l).
Proof. unfold lastn. rewrite length_skipn. lia. Qed.

Lemma lastn_all {A : Type} (n : nat) (l : list A) :
  (length l <= n)%nat -> lastn n l = l.
Proof.
  intros H. unfold lastn. replace (length l - n)%nat with O by lia.
  reflexivity.
Qed.

(** One insertion into a bounded window: append, then drop the head if the
    window is over-full. *)
Lemma lastn_snoc {A : Type} (n : nat) (l : list A) (e : A) :
  lastn n (l ++ [e]) =
  let h := lastn n l ++ [e] in
  if (n <? length h)%nat then tl h else h.
Proof.
  cbv zeta. rewrite length_app, lastn_length. simpl length.
  destruct (Nat.ltb_spec n (Nat.min n (length l) + 1)) as [Hlt | Hge].
  - (* the window was full *)
    assert (Hn : (n <= length l)%nat) by lia.
    unfold lastn. rewrite length_app. simpl length.
    replace (length l + 1 - n)%nat with (S (length l - n)) by lia.
    rewrite <- tl_skipn. f_equal.
    rewrite skipn_app.
    replace (length l - n - length l)%nat with O by lia.
    reflexivity.
  - rewrite (lastn_all n l) by lia.
    apply lastn_all. rewrite length_app. simpl. lia.
Qed.

Lemma add_history (m : MemoryManager) (q r t now : string) :
  let e := {| query := q; result := r; operation_type := t;
              timestamp := now |} in
  _history (add m q r t now) =
  if (Z.of_nat (length (_history m ++ [e])) >? _max_history m)%Z
  then tl (_history m ++ [e]) else _history m ++ [e].
Proof. reflexivity. Qed.

Lemma step_max (m : MemoryManager) (o : op) :
  _max_history (step m o) = _max_history m.
Proof. destruct o; reflexivity. Qed.

Lemma run_max (ops : list op) (m : MemoryManager) :
  _max_history (run m ops) = _max_history m.
Proof.
  revert m; induction ops as [|o ops IH]; intros m; simpl; auto.
  unfold run in *. simpl. rewrite IH. apply step_max.
Qed.

(** The store is the window of the last [max_history] entries of the log. *)
Lemma step_window (m : MemoryManager) (log : list entry) (o : op) :
  (0 <= _max_history m)%Z ->
  _history m = lastn (Z.to_nat (_max_history m)) log ->
  _history (step m o) = lastn (Z.to_nat (_max_history m)) (log_step log o).
Proof.
  intros Hmax Hm. destruct o as [q r t now|]; cbn [step log_step].
  - rewrite add_history. cbv zeta. rewrite lastn_snoc. cbv zeta.
    rewrite <- Hm.
    set (h := _history m ++ _).
    destruct (Z.gtb_spec (Z.of_nat (length h)) (_max_history m)) as [H|H];
      destruct (Nat.ltb_spec (Z.to_nat (_max_history m)) (length h)) as [H'|H'];
      try reflexivity; lia.
  - unfold lastn. reflexivity.
Qed.

Lemma run_window (ops : list op) (m : MemoryManager) (log : list entry) :
  (0 <= _max_history m)%Z ->
  _history m = lastn (Z.to_nat (_max_history m)) log ->
  _history (run m ops) =
  lastn (Z.to_nat (_max_history m)) (fold_left log_step ops log).
Proof.
  revert m log; induction ops as [|o ops IH]; intros m log Hmax Hm; simpl.
  - exact Hm.
  - unfold run in *. simpl. rewrite IH with (log := log_step log o).
    + rewrite step_max. reflexivity.
    + rewrite step_max. exact Hmax.
    + rewrite step_max. apply step_window; assumption.
Qed.

Lemma inserted_records (es : list entry) (log : list entry) :
  fold_left log_step (map record_entry es) log = log ++ es.
Proof.
  revert log; induction es as [|e es IH]; intros log; simpl.
  - symmetry. apply app_nil_r.
  - rewrite IH. destruct e. simpl. rewrite <- app_assoc. reflexivity.
Qed.

(** C1: for a capacity [max_history >= 0] and every sequence of [add] and
    [clear] operations on a new store, the length of the store never exceeds
    [max_history]; the store holds, in insertion order, the last
    [max_history] entries recorded since the last [clear]; an [add] on a
    store that is not full appends the entry and evicts nothing, an [add] on
    a full store appends it and evicts exactly the oldest entry (the head);
    and recording [max_history + k] entries, [k >= 1], leaves exactly the
    last [max_history] of them. *)
Theorem C1_history_bounded_fifo (max_history : Z) (ops : list op) :
  (0 <= max_history)%Z ->
  let m := run (init max_history) ops in
  (count m <= max_history)%Z
  /\ _history m = lastn (Z.to_nat max_history) (inserted ops)
  /\ (forall q r t now,
        let e := {| query := q; result := r; operation_type := t;
                    timestamp := now |} in
        ((count m < max_history)%Z ->
           _history (add m q r t now) = _history m ++ [e])
        /\ ((count m = max_history)%Z ->
           _history (add m q r t now) = tl (_history m ++ [e])
           /\ count (add m q r t now) = count m))
  /\ (forall (es : list entry) (k : Z),
        (1 <= k)%Z -> Z.of_nat (length es) = (max_history + k)%Z ->
        let m' := run (init max_history) (map record_entry es) in
        count m' = max_history
        /\ _history m' = skipn (Z.to_nat k) es).
Proof.
  intros Hmax m.
  assert (Hwin : _history m = lastn (Z.to_nat max_history) (inserted ops)).
  { subst m. unfold inserted.
    rewrite (run_window ops (init max_history) []); auto. }
  assert (Hlen : (count m <= max_history)%Z).
  { unfold count. rewrite Hwin, lastn_length. lia. }
  assert (Hmx : _max_history m = max_history).
  { subst m. rewrite run_max. reflexivity. }
  split; [exact Hlen|]. split; [exact Hwin|]. split.
  - intros q r t now e. unfold count in *.
    split; intros Hc; rewrite add_history; cbv zeta; fold e; rewrite Hmx.
    + destruct (Z.gtb_spec (Z.of_nat (length (_history m ++ [e]))) max_history)
        as [H|H]; [|reflexivity].
      rewrite length_app in H. simpl in H. lia.
    + destruct (Z.gtb_spec (Z.of_nat (length (_history m ++ [e]))) max_history)
        as [H|H].
      * split; [reflexivity|].
        destruct (_history m) as [|x h]; simpl in *; [lia|].
        rewrite length_app. simpl. lia.
      * rewrite length_app in H. simpl in H. lia.
  - intros es k Hk Hes m'.
    assert (Hw' : _history m' = lastn (Z.to_nat max_history) es).
    { subst m'. rewrite (run_window _ (init max_history) []); auto.
      rewrite inserted_records. reflexivity. }
    split.
    + unfold count. rewrite Hw', lastn_length. lia.
    + rewrite Hw'. unfold lastn. f_equal. lia.
Qed.

(** C1, at capacity 2: three entries and then a fourth. *)
Lemma C1_history_bounded_fifo_witness :
  let e := fun q => {| query := q; result := "1"; operation_type := "add";
                       timestamp := "t" |} in
  _history (run (init 2) (map record_entry [e "a"; e "b"; e "c"]))
  = [e "b"; e "c"].
Proof.
  intros e.
  destruct (C1_history_bounded_fifo 2 [] ltac:(lia)) as (_ & _ & _ & H).
  destruct (H [e "a"; e "b"; e "c"] 1%Z ltac:(lia) ltac:(reflexivity))
    as [_ H2].
  exact H2.
Defined.

End HistoryStore.

(** ** The matcher *)

Section Matcher.

Import Shape.

Lemma consumed_app (t s' : text) : consumed (t ++ s') s' = t.
Proof.
  unfold consumed. rewrite length_app.
  replace (length t + length s' - length s')%nat with (length t + 0)%nat by lia.
  rewrite firstn_app_2. simpl. apply app_nil_r.
Qed.

Lemma star_rests_spec (k : cclass) (s s' : text) :
  In s' (star_rests k s) ->
  exists t, s = t ++ s' /\ forallb (accepts k) t = true.
Proof.
  revert s'; induction s as [|c s IH]; intros s' Hin; simpl in Hin.
  - destruct Hin as [<- | []]. exists []. auto.
  - destruct (accepts k c) eqn:Hc.
    + apply in_app_iff in Hin. destruct Hin as [Hin | [<- | []]].
      * destruct (IH _ Hin) as (t & -> & Ht).
        exists (c :: t). simpl. rewrite Hc, Ht. auto.
      * exists []. auto.
    + destruct Hin as [<- | []]. exists []. auto.
Qed.

(** A match consumes a prefix of the input. *)
Lemma rmatch_suffix (r : regex) :
  forall s c s' c', In (s', c') (rmatch r s c) -> exists t, s = t ++ s'.
Proof.
  induction r as [|k|k|k|r IH|r1 IH1 r2 IH2|r1 IH1 r2 IH2|i r IH];
    intros s c s' c' Hin; simpl in Hin.
  - destruct Hin as [[= <- <-] | []]. exists []. reflexivity.
  - destruct s as [|x s]; [contradiction|].
    destruct (accepts k x); [|contradiction].
    destruct Hin as [[= <- <-] | []]. exists [x]. reflexivity.
  - apply in_map_iff in Hin. destruct Hin as (s0 & [= <- <-] & Hin).
    destruct (star_rests_spec _ _ _ Hin) as (t & -> & _). eauto.
  - destruct s as [|x s]; [contradiction|].
    destruct (accepts k x); [|contradiction].
    apply in_map_iff in Hin. destruct Hin as (s0 & [= <- <-] & Hin).
    destruct (star_rests_spec _ _ _ Hin) as (t & -> & _).
    exists (x :: t). reflexivity.
  - apply in_app_iff in Hin. destruct Hin as [Hin | [[= <- <-] | []]].
    + eauto.
    + exists []. reflexivity.
  - apply in_flat_map in Hin. destruct Hin as ([s1 c1] & H1 & H2).
    destruct (IH1 _ _ _ _ H1) as (t1 & ->).
    destruct (IH2 _ _ _ _ H2) as (t2 & Heq). simpl in Heq. subst s1.
    exists (t1 ++ t2). rewrite app_assoc. reflexivity.
  - apply in_app_iff in Hin. destruct Hin; eauto.
  - apply in_map_iff in Hin. destruct Hin as ([s1 c1] & [= <- <-] & Hin).
    eauto.
Qed.

(** [search] returns the bindings of a match at some start position. *)
Lemma search_rmatch (r : regex) (s : text) (c : captures) :
  search r s = Some c ->
  exists s0 s', In (s', c) (rmatch r s0 no_captures).
Proof.
  induction s as [|x s IH]; simpl.
  - destruct (rmatch r [] no_captures) as [|[s' c'] l] eqn:E; [discriminate|].
    intros [= <-]. exists [], s'. rewrite E. left. reflexivity.
  - destruct (rmatch r (x :: s) no_captures) as [|[s' c'] l] eqn:E.
    + exact IH.
    + intros [= <-]. exists (x :: s), s'. rewrite E. left. reflexivity.
Qed.

(** A group is never unbound by the rest of a match. *)
Lemma rmatch_keeps (r : regex) (i : nat) :
  forall s c s' c',
    In (s', c') (rmatch r s c) -> c i <> None -> c' i <> None.
Proof.
  induction r as [|k|k|k|r IH|r1 IH1 r2 IH2|r1 IH1 r2 IH2|j r IH];
    intros s c s' c' Hin Hc; simpl in Hin.
  - destruct Hin as [[= <- <-] | []]. exact Hc.
  - destruct s as [|x s]; [contradiction|].
    destruct (accepts k x); [|contradiction].
    destruct Hin as [[= <- <-] | []]. exact Hc.
  - apply in_map_iff in Hin. destruct Hin as (s0 & [= <- <-] & _). exact Hc.
  - destruct s as [|x s]; [contradiction|].
    destruct (accepts k x); [|contradiction].
    apply in_map_iff in Hin. destruct Hin as (s0 & [= <- <-] & _). exact Hc.
  - apply in_app_iff in Hin. destruct Hin as [Hin | [[= <- <-] | []]]; eauto.
  - apply in_flat_map in Hin. destruct Hin as ([s1 c1] & H1 & H2). eauto.
  - apply in_app_iff in Hin. destruct Hin; eauto.
  - apply in_map_iff in Hin. destruct Hin as ([s1 c1] & [= <- <-] & Hin).
    unfold Regex.bind. simpl. destruct (Nat.eqb i j); [discriminate|]. eauto.
Qed.

Lemma rmatch_binds (r : regex) (i : nat) :
  binds r i = true ->
  forall s c s' c', In (s', c') (rmatch r s c) -> c' i <> None.
Proof.
  induction r as [|k|k|k|r IH|r1 IH1 r2 IH2|r1 IH1 r2 IH2|j r IH];
    simpl; try discriminate; intros Hb s c s' c' Hin.
  - apply in_flat_map in Hin. destruct Hin as ([s1 c1] & H1 & H2).
    apply orb_true_iff in Hb. destruct Hb as [Hb | Hb].
    + eapply rmatch_keeps; eauto.
    + eauto.
  - apply andb_true_iff in Hb. destruct Hb as [Hb1 Hb2].
    apply in_app_iff in Hin. destruct Hin; eauto.
  - apply in_map_iff in Hin. destruct Hin as ([s1 c1] & [= <- <-] & Hin).
    unfold Regex.bind. simpl.
    destruct (Nat.eqb i j) eqn:E; [discriminate|]. simpl in Hb. eauto.
Qed.

Section Invariant.

Variable Q : text -> Prop.
Variable ok : regex -> bool.

(** The bodies accepted by [ok] consume text of shape [Q]. *)
Hypothesis ok_sound :
  forall r, ok r = true ->
  forall s c s' c', In (s', c') (rmatch r s c) -> Q (consumed s s').

Lemma rmatch_inv (r : regex) :
  bodies_ok ok r = true ->
  forall s c s' c',
    caps_inv Q c -> In (s', c') (rmatch r s c) -> caps_inv Q c'.
Proof.
  induction r as [|k|k|k|r IH|r1 IH1 r2 IH2|r1 IH1 r2 IH2|j r IH];
    simpl; intros Hok s c s' c' Hc Hin.
  - destruct Hin as [[= <- <-] | []]. exact Hc.
  - destruct s as [|x s]; [contradiction|].
    destruct (accepts k x); [|contradiction].
    destruct Hin as [[= <- <-] | []]. exact Hc.
  - apply in_map_iff in Hin. destruct Hin as (s0 & [= <- <-] & _). exact Hc.
  - destruct s as [|x s]; [contradiction|].
    destruct (accepts k x); [|contradiction].
    apply in_map_iff in Hin. destruct Hin as (s0 & [= <- <-] & _). exact Hc.
  - apply in_app_iff in Hin. destruct Hin as [Hin | [[= <- <-] | []]]; eauto.
  - apply andb_true_iff in Hok. destruct Hok as [Hok1 Hok2].
    apply in_flat_map in Hin. destruct Hin as ([s1 c1] & H1 & H2). eauto.
  - apply andb_true_iff in Hok. destruct Hok as [Hok1 Hok2].
    apply in_app_iff in Hin. destruct Hin; eauto.
  - apply andb_true_iff in Hok. destruct Hok as [Hok1 Hok2].
    apply in_map_iff in Hin. destruct Hin as ([s1 c1] & [= <- <-] & Hin).
    intros i t. unfold Regex.bind. simpl.
    destruct (Nat.eqb i j).
    + intros [= <-]. eapply ok_sound; eauto.
    + eapply IH; eauto.
Qed.

(** After a successful search every group is bound to text of shape [Q]. *)
Lemma search_groups (r : regex) (s : text) (c : captures) :
  bodies_ok ok r = true -> binds_all r = true ->
  search r s = Some c ->
  Forall (fun g => exists t, g = Some t /\ Q t) (groups r c).
Proof.
  intros Hok Hb Hs.
  destruct (search_rmatch _ _ _ Hs) as (s0 & s' & Hin).
  assert (Hinv : caps_inv Q c).
  { eapply rmatch_inv; eauto. intros i t. discriminate. }
  unfold groups. apply Forall_forall. intros g Hg.
  apply in_map_iff in Hg. destruct Hg as (i & <- & Hi).
  unfold binds_all in Hb. rewrite forallb_forall in Hb.
  specialize (Hb i Hi).
  pose proof (rmatch_binds r i Hb _ _ _ _ Hin) as Hne.
  destruct (c i) as [t|] eqn:E; [|congruence].
  exists t. split; [reflexivity|]. eapply Hinv; eauto.
Qed.

End Invariant.

End Matcher.

(** ** Captured text and its value *)

Section Captured.

Import Shape.

Lemma span_digits_all (d rest : text) :
  forallb is_digit d = true ->
  match rest with [] => True | c :: _ => is_digit c = false end ->
  span_digits (d ++ rest) = (d, rest).
Proof.
  intros Hd Hrest. induction d as [|x d IH]; simpl in *.
  - destruct rest as [|c rest]; [reflexivity|]. simpl. rewrite Hrest.
    reflexivity.
  - apply andb_true_iff in Hd. destruct Hd as [Hx Hd].
    rewrite Hx, (IH Hd). reflexivity.
Qed.

Lemma span_digits_fst (t : text) :
  forallb is_digit (fst (span_digits t)) = true.
Proof.
  induction t as [|x t IH]; simpl; [reflexivity|].
  destruct (is_digit x) eqn:Hx; [|reflexivity].
  destruct (span_digits t) as [ds rest]. simpl in *. rewrite Hx. exact IH.
Qed.

Lemma span_digits_app (t : text) :
  t = fst (span_digits t) ++ snd (span_digits t).
Proof.
  induction t as [|x t IH]; simpl; [reflexivity|].
  destruct (is_digit x); [|reflexivity].
  destruct (span_digits t) as [ds rest]. simpl in *. congruence.
Qed.

Lemma point_only (y : ascii) :
  accepts (CChar ".") y = true -> y = "."%char.
Proof.
  destruct y as [[] [] [] [] [] [] [] []]; vm_compute; congruence.
Qed.

Lemma point_not_digit : is_digit "." = false.
Proof. reflexivity. Qed.

(** [\d+] consumes a non-empty digit string. *)
Lemma digits1_sound (s : text) (c : captures) (s' : text) (c' : captures) :
  In (s', c') (rmatch digits1 s c) -> all_digits (consumed s s') = true.
Proof.
  unfold digits1. simpl. destruct s as [|x s]; [contradiction|].
  destruct (is_digit x) eqn:Hx; [|contradiction].
  intros Hin. apply in_map_iff in Hin. destruct Hin as (s0 & [= <- <-] & Hin).
  destruct (star_rests_spec _ _ _ Hin) as (t & -> & Ht).
  change (x :: t ++ s0) with ((x :: t) ++ s0). rewrite consumed_app.
  simpl. rewrite Hx. exact Ht.
Qed.

Lemma all_digits_unsigned (t : text) :
  all_digits t = true -> unsigned_decimal t = true.
Proof.
  unfold all_digits, unsigned_decimal. destruct t as [|x t]; [discriminate|].
  intros H. rewrite <- (app_nil_r (x :: t)).
  rewrite span_digits_all; auto.
Qed.

Lemma in_rmatch_seq (a b : regex) (s : text) (c : captures) (st : text * captures) :
  In st (rmatch (Seq a b) s c) ->
  exists s1 c1, In (s1, c1) (rmatch a s c) /\ In st (rmatch b s1 c1).
Proof.
  simpl. intros Hin. apply in_flat_map in Hin.
  destruct Hin as ([s1 c1] & H1 & H2). eauto.
Qed.

Lemma in_rmatch_opt_chr (k : cclass) (s : text) (c : captures) (st : text * captures) :
  In st (rmatch (Opt (Chr k)) s c) ->
  (exists y, accepts k y = true /\ s = y :: fst st) \/ fst st = s.
Proof.
  simpl. intros Hin. apply in_app_iff in Hin.
  destruct Hin as [Hin | [<- | []]]; [|right; reflexivity].
  destruct s as [|y s]; [contradiction|].
  destruct (accepts k y) eqn:Hy; [|contradiction].
  destruct Hin as [<- | []]. left. exists y. auto.
Qed.

Lemma in_rmatch_star (k : cclass) (s : text) (c : captures) (st : text * captures) :
  In st (rmatch (Star k) s c) ->
  exists t, s = t ++ fst st /\ forallb (accepts k) t = true.
Proof.
  simpl. intros Hin. apply in_map_iff in Hin.
  destruct Hin as (s0 & <- & Hin). apply star_rests_spec. exact Hin.
Qed.

(** [\d+\.?\d*] consumes an unsigned decimal. *)
Lemma number_sound (s : text) (c : captures) (s' : text) (c' : captures) :
  In (s', c') (rmatch number s c) -> unsigned_decimal (consumed s s') = true.
Proof.
  unfold number, lit. intros Hin.
  apply in_rmatch_seq in Hin. destruct Hin as (s1 & c1 & H1 & Hin).
  apply in_rmatch_seq in Hin. destruct Hin as (s2 & c2 & H2 & H3).
  pose proof (digits1_sound _ _ _ _ H1) as Hd.
  destruct (rmatch_suffix _ _ _ _ _ H1) as (d & ->).
  rewrite consumed_app in Hd.
  apply in_rmatch_star in H3. cbn [fst] in H3.
  destruct H3 as (f & -> & Hf). change (accepts CDigit) with is_digit in Hf.
  assert (Hdd : forallb is_digit d = true).
  { unfold all_digits in Hd. destruct d; [discriminate | exact Hd]. }
  apply in_rmatch_opt_chr in H2. cbn [fst] in H2.
  destruct H2 as [(y & Hy & ->) | <-].
  - (* the point is present *)
    apply point_only in Hy. subst y.
    replace (d ++ "."%char :: f ++ s') with ((d ++ "."%char :: f) ++ s')
      by (rewrite <- app_assoc; reflexivity).
    rewrite consumed_app. unfold unsigned_decimal.
    rewrite span_digits_all; auto.
    destruct d; [discriminate | exact Hf].
  - (* no point: digits only *)
    rewrite app_assoc, consumed_app.
    apply all_digits_unsigned. unfold all_digits.
    destruct d as [|x d]; [discriminate|].
    change ((x :: d) ++ f) with (x :: d ++ f) at 1.
    cbv iota. rewrite forallb_app, Hdd, Hf. reflexivity.
Qed.

Lemma regex_eqb_eq (r1 r2 : regex) : regex_eqb r1 r2 = true -> r1 = r2.
Proof.
  revert r2.
  assert (Hk : forall k1 k2,
             match k1, k2 with
             | CDigit, CDigit | CSpace, CSpace => true
             | CChar a, CChar b => Ascii.eqb a b
             | _, _ => false
             end = true -> k1 = k2).
  { intros [| |a] [| |b]; try discriminate; auto.
    intros H. apply Ascii.eqb_eq in H. congruence. }
  induction r1 as [|k|k|k|r IH|a1 IH1 a2 IH2|a1 IH1 a2 IH2|i r IH];
    intros [|k'|k'|k'|r'|b1 b2|b1 b2|j r']; simpl; try discriminate;
    intros H.
  - reflexivity.
  - f_equal. auto.
  - f_equal. auto.
  - f_equal. auto.
  - f_equal. auto.
  - apply andb_true_iff in H. destruct H. f_equal; auto.
  - apply andb_true_iff in H. destruct H. f_equal; auto.
  - apply andb_true_iff in H. destruct H as [Hi Hr].
    apply Nat.eqb_eq in Hi. f_equal; auto.
Qed.

Lemma number_body_sound (r : regex) :
  is_number_body r = true ->
  forall s c s' c',
    In (s', c') (rmatch r s c) -> unsigned_decimal (consumed s s') = true.
Proof.
  unfold is_number_body. intros H s c s' c' Hin.
  apply orb_true_iff in H. destruct H as [H | H];
    apply regex_eqb_eq in H; subst r.
  - eapply number_sound; eauto.
  - apply all_digits_unsigned. eapply digits1_sound; eauto.
Qed.


(** *** The value of a captured string *)

Lemma digits_val_nonneg (t : text) :
  forallb is_digit t = true -> (0 <= digits_val t)%Z.
Proof.
  unfold digits_val.
  assert (H : forall acc, (0 <= acc)%Z -> forallb is_digit t = true ->
                          (0 <= fold_left (fun a c => 10 * a + digit_val c) t acc)%Z).
  { induction t as [|x t IH]; intros acc Hacc Hd; cbn [fold_left forallb] in *;
      [exact Hacc|].
    apply andb_true_iff in Hd. destruct Hd as [Hx Hd].
    apply IH; [|exact Hd].
    unfold is_digit in Hx. apply andb_true_iff in Hx. destruct Hx as [Hx _].
    apply N.leb_le in Hx. unfold digit_val. lia. }
  intros Hd. apply H; [lia | exact Hd].
Qed.

Lemma decimal_nonneg (ip fp : text) :
  forallb is_digit ip = true -> forallb is_digit fp = true ->
  (0 <= decimal ip fp)%Q.
Proof.
  intros Hi Hf. unfold decimal. rewrite Qred_correct.
  unfold Qle. simpl. rewrite Z.mul_1_r.
  apply digits_val_nonneg. rewrite forallb_app, Hi, Hf. reflexivity.
Qed.

(** A string that starts with a digit carries no sign. *)
Lemma float_of_text_digit (x : ascii) (t : text) :
  is_digit x = true ->
  float_of_text (x :: t) =
  match unsigned_float (x :: t) with
  | Some q => Ok (PyFloat q)
  | None => Raise (ValueError "could not convert string to float")
  end.
Proof.
  intros Hx. unfold float_of_text.
  destruct x as [[] [] [] [] [] [] [] []];
    try reflexivity; vm_compute in Hx; discriminate.
Qed.

(** [float] of an unsigned decimal is a non-negative float. *)
Lemma float_of_unsigned_decimal (t : text) :
  unsigned_decimal t = true ->
  exists q, float_of_text t = Ok (PyFloat q) /\ (0 <= q)%Q.
Proof.
  unfold unsigned_decimal. intros H.
  pose proof (span_digits_fst t) as Hfst.
  pose proof (span_digits_app t) as Happ.
  destruct (span_digits t) as [ip rest] eqn:E. cbn [fst snd] in *.
  destruct ip as [|x ip]; [discriminate|].
  assert (Hx : is_digit x = true).
  { simpl in Hfst. apply andb_true_iff in Hfst. tauto. }
  rewrite Happ. change ((x :: ip) ++ rest) with (x :: (ip ++ rest)).
  rewrite float_of_text_digit by exact Hx.
  change (x :: (ip ++ rest)) with ((x :: ip) ++ rest). rewrite <- Happ.
  unfold unsigned_float. rewrite E.
  destruct rest as [|y fp].
  - eexists. split; [reflexivity|]. apply decimal_nonneg; auto.
  - destruct y as [[] [] [] [] [] [] [] []]; try discriminate.
    rewrite H. eexists. split; [reflexivity|]. apply decimal_nonneg; auto.
Qed.



End Captured.

(** ** The parser *)

Section ParserFacts.

Import Shape Parser.

(** Every pattern of the source table is in the fragment, and [patterns] is
    the table of their compiled forms. *)
Lemma patterns_compiled :
  Syntax.compile_table pattern_sources = Some patterns.
Proof. vm_compute. reflexivity. Qed.

Example factorial_pattern_compiled :
  Syntax.compile "(\d+)\s*factorial"
  = Some (Seq (Group 1 digits1)
            (Seq (Star CSpace)
               (Seq (lit "f") (Seq (lit "a") (Seq (lit "c") (Seq (lit "t")
               (Seq (lit "o") (Seq (lit "r") (Seq (lit "i") (Seq (lit "a")
                  (lit "l"))))))))))).
Proof. reflexivity. Qed.

Example number_pattern_compiled :
  Syntax.compile "\d+\.?\d*" = Some number.
Proof. reflexivity. Qed.

(** The result of the two loops of [parse] comes from one pattern of the
    table that matched. *)
Lemma parse_patterns_some (op : string) (pats : list regex) (s : text)
    (input : string) (d : parsed_data) :
  parse_patterns op pats s input = Ok (Some d) ->
  exists p m ops,
    In p pats /\ search p s = Some m /\ floats (groups p m) = Ok ops
    /\ d = {| operation := op;
              operands := _handle_special_cases op ops;
              original_text := input |}.
Proof.
  induction pats as [|p pats IH]; simpl; [discriminate|].
  destruct (search p s) as [m|] eqn:E.
  - destruct (floats (groups p m)) as [ops|e] eqn:F; simpl; [|discriminate].
    intros [= <-]. exists p, m, ops. auto.
  - intros H. destruct (IH H) as (p' & m & ops & Hin & rest).
    exists p', m, ops. auto.
Qed.

Lemma parse_patterns_raise (op : string) (pats : list regex) (s : text)
    (input : string) (e : exn) :
  parse_patterns op pats s input = Raise e ->
  exists p m, In p pats /\ search p s = Some m
              /\ floats (groups p m) = Raise e.
Proof.
  induction pats as [|p pats IH]; simpl; [discriminate|].
  destruct (search p s) as [m|] eqn:E.
  - destruct (floats (groups p m)) as [ops|e'] eqn:F; simpl; [discriminate|].
    intros [= <-]. exists p, m. auto.
  - intros H. destruct (IH H) as (p' & m & Hin & rest). exists p', m. auto.
Qed.

Lemma parse_table_some (tbl : list (string * list regex)) (s : text)
    (input : string) (d : parsed_data) :
  parse_table tbl s input = Ok (Some d) ->
  exists op pats p m ops,
    In (op, pats) tbl /\ In p pats /\ search p s = Some m
    /\ floats (groups p m) = Ok ops
    /\ d = {| operation := op;
              operands := _handle_special_cases op ops;
              original_text := input |}.
Proof.
  induction tbl as [|[op pats] tbl IH]; simpl; [discriminate|].
  destruct (parse_patterns op pats s input) as [[d'|]|e] eqn:E; simpl.
  - intros [= <-]. apply parse_patterns_some in E.
    destruct E as (p & m & ops & H1 & H2 & H3 & H4).
    exists op, pats, p, m, ops. auto.
  - intros H. destruct (IH H) as (op' & pats' & p & m & ops & H0 & rest).
    exists op', pats', p, m, ops. auto.
  - discriminate.
Qed.

Lemma parse_table_raise (tbl : list (string * list regex)) (s : text)
    (input : string) (e : exn) :
  parse_table tbl s input = Raise e ->
  exists op pats p m,
    In (op, pats) tbl /\ In p pats /\ search p s = Some m
    /\ floats (groups p m) = Raise e.
Proof.
  induction tbl as [|[op pats] tbl IH]; simpl; [discriminate|].
  destruct (parse_patterns op pats s input) as [[d'|]|e'] eqn:E; simpl.
  - discriminate.
  - intros H. destruct (IH H) as (op' & pats' & p & m & H0 & rest).
    exists op', pats', p, m. auto.
  - intros [= <-]. apply parse_patterns_raise in E.
    destruct E as (p & m & H1 & H2 & H3). exists op, pats, p, m. auto.
Qed.

(** Every pattern of the table binds all its groups to unsigned decimals. *)
Lemma table_numeric (op : string) (pats : list regex) (p : regex) :
  In (op, pats) patterns -> In p pats -> numeric_pattern p = true.
Proof.
  assert (H : forallb (fun e => forallb numeric_pattern (snd e)) patterns
              = true) by (vm_compute; reflexivity).
  rewrite forallb_forall in H. intros H1 H2.
  specialize (H _ H1). simpl in H. rewrite forallb_forall in H. auto.
Qed.


(** The patterns of [square] and [cube] have exactly one group. *)
Lemma table_square_cube (op : string) (pats : list regex) (p : regex) :
  op = "square" \/ op = "cube" ->
  In (op, pats) patterns -> In p pats -> ngroups p = 1%nat.
Proof.
  assert (H : forallb (fun e => negb (String.eqb (fst e) "square"
                                      || String.eqb (fst e) "cube")
                                || forallb (fun p => Nat.eqb (ngroups p) 1)
                                     (snd e)) patterns
              = true) by (vm_compute; reflexivity).
  rewrite forallb_forall in H. intros Hop H1 H2.
  specialize (H _ H1). cbn [fst snd] in H.
  assert (Hop' : (String.eqb op "square" || String.eqb op "cube") = true).
  { destruct Hop; subst op; reflexivity. }
  rewrite Hop' in H. simpl in H. rewrite forallb_forall in H.
  apply Nat.eqb_eq. auto.
Qed.

Lemma search_numeric (p : regex) (s : text) (m : captures) :
  numeric_pattern p = true -> search p s = Some m ->
  Forall (fun g => exists t, g = Some t /\ unsigned_decimal t = true)
         (groups p m).
Proof.
  unfold numeric_pattern. intros H Hs.
  apply andb_true_iff in H. destruct H as [Hok Hb].
  eapply (search_groups (fun t => unsigned_decimal t = true) is_number_body);
    eauto using number_body_sound.
Qed.


(** [floats] never fails on unsigned decimals, keeps them all, and yields
    non-negative floats. *)
Lemma floats_unsigned (gs : list (option text)) :
  Forall (fun g => exists t, g = Some t /\ unsigned_decimal t = true) gs ->
  exists qs, floats gs = Ok (map PyFloat qs)
             /\ Forall (fun q => (0 <= q)%Q) qs
             /\ length qs = length gs.
Proof.
  induction 1 as [|g gs (t & -> & Ht) _ (qs & IH1 & IH2 & IH3)].
  - exists []. simpl. auto.
  - destruct (float_of_unsigned_decimal t Ht) as (q & Hq & Hq0).
    exists (q :: qs). simpl.
    assert (Hne : t <> []) by (intros ->; discriminate).
    destruct t as [|x t]; [congruence|].
    rewrite Hq. simpl. rewrite IH1. simpl. auto.
Qed.

(** [parse] returns: converting the captured text never fails. *)
Lemma parse_returns (input : string) : exists r, parse input = Ok r.
Proof.
  destruct (parse input) as [r|e] eqn:E; [eauto|].
  unfold parse in E. apply parse_table_raise in E.
  destruct E as (op & pats & p & m & H1 & H2 & H3 & H4).
  pose proof (search_numeric p _ m (table_numeric _ _ _ H1 H2) H3) as HF.
  destruct (floats_unsigned _ HF) as (qs & Hqs & _). congruence.
Qed.

Lemma special_cases_nonneg (op : string) (qs : list Q) :
  Forall (fun q => (0 <= q)%Q) qs ->
  Forall (fun x => (0 <= value x)%Q)
         (_handle_special_cases op (map PyFloat qs)).
Proof.
  intros H.
  assert (Hm : Forall (fun x => (0 <= value x)%Q) (map PyFloat qs)).
  { induction H; simpl; constructor; auto. }
  unfold _handle_special_cases.
  destruct (String.eqb op "square" && _) eqn:E1;
    [|destruct (String.eqb op "cube" && _) eqn:E2]; auto.
  - destruct qs as [|q [|q' qs]]; simpl in *;
      rewrite ?andb_false_r in E1; try discriminate.
    inversion Hm; subst. repeat constructor; auto. discriminate.
  - destruct qs as [|q [|q' qs]]; simpl in *;
      rewrite ?andb_false_r in E2; try discriminate.
    inversion Hm; subst. repeat constructor; auto. discriminate.
Qed.

End ParserFacts.

(** ** The calculator *)

Section CalculatorFacts.

Import Shape Parser Calculator.

Variable L : Lib.

Lemma calculate_divide (ops : list num) (t : string) :
  calculate L {| operation := "divide"; operands := ops; original_text := t |}
  = _divide ops.
Proof. reflexivity. Qed.


Lemma calculate_power_family (op : string) (ops : list num) (t : string) :
  In op ["power"; "square"; "cube"] ->
  calculate L {| operation := op; operands := ops; original_text := t |}
  = _power L ops.
Proof.
  intros [<- | [<- | [<- | []]]]; reflexivity.
Qed.






End CalculatorFacts.

(** C3: for every operand [a], [divide] on [[a, b]] with [b] equal to zero
    raises [ZeroDivisionError]; with [b] different from zero it returns the
    float [a / b]; and on an operand list whose length is not 2 it raises
    the arity error. *)
Theorem C3_divide (L : Lib) (t : string) :
  (forall a b, (value b == 0)%Q ->
     Calculator.calculate L
       {| Parser.operation := "divide"; Parser.operands := [a; b];
          Parser.original_text := t |}
     = Raise (ZeroDivisionError "Cannot divide by zero"))
  /\ (forall a b, ~ (value b == 0)%Q ->
     exists q,
       Calculator.calculate L
         {| Parser.operation := "divide"; Parser.operands := [a; b];
            Parser.original_text := t |}
       = Ok (PyFloat q)
       /\ (q == value a / value b)%Q)
  /\ (forall operands, length operands <> 2%nat ->
     Calculator.calculate L
       {| Parser.operation := "divide"; Parser.operands := operands;
          Parser.original_text := t |}
     = Raise (ValueError "Division requires exactly 2 operands")).
Proof.
  split; [|split].
  - intros a b Hb. rewrite calculate_divide. unfold Calculator._divide, num_eqb.
    cbn [value]. change (inject_Z 0) with 0%Q.
    apply Qeq_bool_iff in Hb. rewrite Hb. reflexivity.
  - intros a b Hb. rewrite calculate_divide. unfold Calculator._divide, num_eqb.
    cbn [value]. change (inject_Z 0) with 0%Q.
    destruct (Qeq_bool (value b) 0) eqn:E.
    + apply Qeq_bool_iff in E. contradiction.
    + eexists. split; [reflexivity|]. apply Qred_correct.
  - intros ops Hlen. rewrite calculate_divide.
    destruct ops as [|a [|b [|c ops]]]; simpl in *; try reflexivity.
    congruence.
Qed.

(** C3 at 10 / 0, 10 / 4 and a single operand. *)
Lemma C3_divide_witness :
  Calculator.calculate no_lib
    {| Parser.operation := "divide";
       Parser.operands := [PyFloat (10 # 1); PyFloat (0 # 1)];
       Parser.original_text := "" |}
  = Raise (ZeroDivisionError "Cannot divide by zero")
  /\ (exists q,
        Calculator.calculate no_lib
          {| Parser.operation := "divide";
             Parser.operands := [PyFloat (10 # 1); PyFloat (4 # 1)];
             Parser.original_text := "" |}
        = Ok (PyFloat q)
        /\ (q == (10 # 1) / (4 # 1))%Q)
  /\ Calculator.calculate no_lib
       {| Parser.operation := "divide";
          Parser.operands := [PyFloat (10 # 1)];
          Parser.original_text := "" |}
     = Raise (ValueError "Division requires exactly 2 operands").
Proof.
  destruct (C3_divide no_lib "") as (H1 & H2 & H3).
  split; [|split].
  - apply (H1 (PyFloat (10 # 1)) (PyFloat (0 # 1))). reflexivity.
  - apply (H2 (PyFloat (10 # 1)) (PyFloat (4 # 1))). discriminate.
  - apply (H3 [PyFloat (10 # 1)]). discriminate.
Defined.



(** ** Parsed requests *)

Section Requests.

Import Shape Parser Calculator.

Lemma groups_length (p : regex) (m : captures) :
  length (groups p m) = ngroups p.
Proof. unfold groups. rewrite length_map, length_seq. reflexivity. Qed.

(** A request parsed as [square] or [cube] carries the captured operand and
    the implicit exponent. *)
Lemma parse_square_cube (input : string) (d : parsed_data) (op : string) :
  op = "square" \/ op = "cube" ->
  parse input = Ok (Some d) -> operation d = op ->
  exists q, (0 <= q)%Q
            /\ operands d = _handle_special_cases op [PyFloat q].
Proof.
  intros Hop Hp Hd. unfold parse in Hp. apply parse_table_some in Hp.
  destruct Hp as (op' & pats & p & m & ops & H1 & H2 & H3 & H4 & ->).
  simpl in Hd. subst op'.
  pose proof (search_numeric p _ m (table_numeric _ _ _ H1 H2) H3) as HF.
  destruct (floats_unsigned _ HF) as (qs & Hqs & Hpos & Hlen).
  rewrite groups_length, (table_square_cube op pats p Hop H1 H2) in Hlen.
  destruct qs as [|q [|q' qs]]; try discriminate.
  assert (Hops : ops = map PyFloat [q]) by congruence. subst ops.
  exists q. inversion Hpos; subst. split; [assumption|]. reflexivity.
Qed.

End Requests.

(** C5: [_handle_special_cases] turns the single operand [x] of a [square]
    request into [[x, 2]] and that of a [cube] request into [[x, 3]], and
    returns the operands of every other operation as they are; every request
    that [parse] returns for [square] (for [cube]) has operands [[x, 2]]
    ([[x, 3]]) with [x] the captured float; [calculate] evaluates [square]
    and [cube] requests with [_power]; and "5 squared" parses to operands
    [[5.0, 2]] and evaluates to [25.0]. *)
Theorem C5_square_cube (L : Lib) :
  (forall x, Parser._handle_special_cases "square" [x] = [x; PyInt 2])
  /\ (forall x, Parser._handle_special_cases "cube" [x] = [x; PyInt 3])
  /\ (forall op operands, op <> "square" -> op <> "cube" ->
        Parser._handle_special_cases op operands = operands)
  /\ (forall input d, Parser.parse input = Ok (Some d) ->
        (Parser.operation d = "square" ->
           exists q, Parser.operands d = [PyFloat q; PyInt 2])
        /\ (Parser.operation d = "cube" ->
           exists q, Parser.operands d = [PyFloat q; PyInt 3]))
  /\ (forall op operands t, op = "square" \/ op = "cube" ->
        Calculator.calculate L
          {| Parser.operation := op; Parser.operands := operands;
             Parser.original_text := t |}
        = Calculator._power L operands)
  /\ Parser.parse "5 squared"
     = Ok (Some {| Parser.operation := "square";
                   Parser.operands := [PyFloat (5 # 1); PyInt 2];
                   Parser.original_text := "5 squared" |})
  /\ Calculator.calculate L
       {| Parser.operation := "square";
          Parser.operands := [PyFloat (5 # 1); PyInt 2];
          Parser.original_text := "5 squared" |}
     = Ok (PyFloat (25 # 1)).
Proof.
  repeat split.
  - intros op operands Hs Hc. unfold Parser._handle_special_cases.
    apply String.eqb_neq in Hs, Hc. rewrite Hs, Hc. reflexivity.
  - intros Hop.
    destruct (parse_square_cube input d "square" (or_introl eq_refl) H Hop)
      as (q & _ & Hq).
    exists q. exact Hq.
  - intros Hop.
    destruct (parse_square_cube input d "cube" (or_intror eq_refl) H Hop)
      as (q & _ & Hq).
    exists q. exact Hq.
  - intros op operands t [-> | ->]; apply calculate_power_family; simpl; auto.
Qed.

(** C5 on "What's 4 cubed?". *)
Lemma C5_square_cube_witness :
  let d := {| Parser.operation := "cube";
              Parser.operands := [PyFloat (4 # 1); PyInt 3];
              Parser.original_text := "What's 4 cubed?" |} in
  Parser.parse "What's 4 cubed?" = Ok (Some d)
  /\ Parser.operation d = "cube"
  /\ exists q, Parser.operands d = [PyFloat q; PyInt 3].
Proof.
  intros d.
  assert (Hp : Parser.parse "What's 4 cubed?" = Ok (Some d))
    by (vm_compute; reflexivity).
  split; [exact Hp|]. split; [reflexivity|].
  destruct (C5_square_cube no_lib) as (_ & _ & _ & H & _).
  exact (proj2 (H "What's 4 cubed?" d Hp) eq_refl).
Defined.

(** C9 as the code has it: converting the captured text never fails;
    after a match of any pattern of the table every group holds an unsigned
    decimal (digits, then possibly a point and further digits, without sign
    or exponent) whose [float] is non-negative; hence every operand of every
    parsed request is non-negative, and "-5 plus 3" yields the operands
    [[5.0, 3.0]]: the minus sign is not captured. *)
Theorem C9_captures_unsigned (input : string) :
  (exists r, Parser.parse input = Ok r)
  /\ (forall op pats pattern m,
        In (op, pats) Parser.patterns -> In pattern pats ->
        search pattern (of_string (lower input)) = Some m ->
        Forall (fun g => exists t q,
                    g = Some t /\ Shape.unsigned_decimal t = true
                    /\ float_of_text t = Ok (PyFloat q) /\ (0 <= q)%Q)
               (groups pattern m))
  /\ (forall d, Parser.parse input = Ok (Some d) ->
        Forall (fun x => (0 <= value x)%Q) (Parser.operands d))
  /\ Parser.parse "-5 plus 3"
     = Ok (Some {| Parser.operation := "add";
                   Parser.operands := [PyFloat (5 # 1); PyFloat (3 # 1)];
                   Parser.original_text := "-5 plus 3" |}).
Proof.
  split; [apply parse_returns|]. split; [|split].
  - intros op pats p m H1 H2 H3.
    pose proof (search_numeric p _ m (table_numeric _ _ _ H1 H2) H3) as HF.
    eapply Forall_impl; [|exact HF].
    intros g (t & -> & Ht).
    destruct (float_of_unsigned_decimal t Ht) as (q & Hq & Hq0).
    exists t, q. auto.
  - intros d Hp. unfold Parser.parse in Hp. apply parse_table_some in Hp.
    destruct Hp as (op & pats & p & m & ops & H1 & H2 & H3 & H4 & ->).
    pose proof (search_numeric p _ m (table_numeric _ _ _ H1 H2) H3) as HF.
    destruct (floats_unsigned _ HF) as (qs & Hqs & Hpos & _).
    assert (ops = map PyFloat qs) by congruence. subst ops.
    simpl. apply special_cases_nonneg. exact Hpos.
  - vm_compute. reflexivity.
Qed.

(** C9 on "2.5 times 4". *)
Lemma C9_captures_unsigned_witness :
  let d := {| Parser.operation := "multiply";
              Parser.operands := [PyFloat (5 # 2); PyFloat (4 # 1)];
              Parser.original_text := "2.5 times 4" |} in
  Parser.parse "2.5 times 4" = Ok (Some d)
  /\ Forall (fun x => (0 <= value x)%Q) (Parser.operands d).
Proof.
  intros d.
  assert (Hp : Parser.parse "2.5 times 4" = Ok (Some d))
    by (vm_compute; reflexivity).
  split; [exact Hp|].
  destruct (C9_captures_unsigned "2.5 times 4") as (_ & _ & H & _).
  exact (H d Hp).
Defined.

(** C9 as the claim states it fails: on "-5 plus 3" no operand is the
    negative float [-5.0]. *)
Lemma C9_counterexample :
  exists d, Parser.parse "-5 plus 3" = Ok (Some d)
            /\ Parser.operands d = [PyFloat (5 # 1); PyFloat (3 # 1)]
            /\ ~ In (PyFloat (-5 # 1)) (Parser.operands d).
Proof.
  eexists. split; [vm_compute; reflexivity|]. split; [reflexivity|].
  simpl. intros [H | [H | []]]; discriminate.
Qed.



(** ** Reading the history *)

Section Recent.

Import Memory.

Lemma get_history_none (m : MemoryManager) :
  get_history m None = rev (_history m).
Proof. reflexivity. Qed.

(** For a positive limit: the [limit] newest entries, newest first. *)
Lemma get_history_positive (m : MemoryManager) (limit : Z) :
  (0 < limit)%Z ->
  get_history m (Some limit) = firstn (Z.to_nat limit) (rev (_history m)).
Proof.
  intros Hl. unfold get_history, slice_from.
  destruct (Z.ltb_spec (- limit) 0) as [_|H]; [|lia].
  rewrite firstn_rev. f_equal. f_equal. lia.
Qed.

(** With room for one entry, the entry just recorded is the newest. *)
Lemma add_newest (m : MemoryManager) (q r t now : string) :
  (1 <= _max_history m)%Z ->
  exists h,
    _history (add m q r t now)
    = h ++ [{| query := q; result := r; operation_type := t;
               timestamp := now |}].
Proof.
  intros Hmax. rewrite add_history. cbv zeta.
  set (e := {| query := q |}).
  destruct (Z.gtb_spec (Z.of_nat (length (_history m ++ [e])))
              (_max_history m)) as [H|H].
  - rewrite length_app in H. simpl in H.
    destruct (_history m) as [|x h]; simpl in *; [lia|].
    exists h. reflexivity.
  - exists (_history m). reflexivity.
Qed.

End Recent.

(** C2: "What's 25 + 17?" parses to the operation [add] with operands
    [[25.0, 17.0]]; that request evaluates to [42.0]; and after recording it
    in a store with room for at least one entry, [get_history(1)] returns
    exactly the recorded entry. *)
Theorem C2_round_trip (L : Lib) (m : Memory.MemoryManager) (now : string) :
  let request := {| Parser.operation := "add";
                    Parser.operands := [PyFloat (25 # 1); PyFloat (17 # 1)];
                    Parser.original_text := "What's 25 + 17?" |} in
  let recorded := {| Memory.query := "What's 25 + 17?";
                     Memory.result := Agent.str L (PyFloat (42 # 1));
                     Memory.operation_type := "add";
                     Memory.timestamp := now |} in
  Parser.parse "What's 25 + 17?" = Ok (Some request)
  /\ Calculator.calculate L request = Ok (PyFloat (42 # 1))
  /\ ((1 <= Memory._max_history m)%Z ->
      Memory.get_history
        (Memory.add m "What's 25 + 17?" (Agent.str L (PyFloat (42 # 1)))
           "add" now)
        (Some 1%Z)
      = [recorded]).
Proof.
  intros request recorded. split; [vm_compute; reflexivity|].
  split; [reflexivity|].
  intros Hmax. rewrite get_history_positive by lia.
  destruct (add_newest m "What's 25 + 17?" (Agent.str L (PyFloat (42 # 1)))
              "add" now Hmax) as (h & ->).
  rewrite rev_app_distr. reflexivity.
Qed.

(** C2 on the default store of capacity 100. *)
Lemma C2_round_trip_witness :
  Memory.get_history
    (Memory.add (Memory.init 100) "What's 25 + 17?"
       (Agent.str no_lib (PyFloat (42 # 1))) "add" "2024-01-01T00:00:00")
    (Some 1%Z)
  = [{| Memory.query := "What's 25 + 17?";
        Memory.result := Agent.str no_lib (PyFloat (42 # 1));
        Memory.operation_type := "add";
        Memory.timestamp := "2024-01-01T00:00:00" |}].
Proof.
  destruct (C2_round_trip no_lib (Memory.init 100) "2024-01-01T00:00:00")
    as (_ & _ & H).
  apply H. simpl. lia.
Defined.

(** C8 at the limit 0: [get_history(0)] returns the whole store, newest
    first, as [get_history()] does; on a store of one entry it returns that
    entry, which is more than 0 entries. *)
Theorem C8_recent_limit_zero :
  (forall m, Memory.get_history m (Some 0%Z) = Memory.get_history m None)
  /\ Memory.get_history
       (Memory.add (Memory.init 100) "1 + 1" "2.0" "add" "t0") (Some 0%Z)
     = [{| Memory.query := "1 + 1"; Memory.result := "2.0";
           Memory.operation_type := "add"; Memory.timestamp := "t0" |}].
Proof.
  split; [|reflexivity].
  intros m. unfold Memory.get_history, Memory.slice_from. simpl.
  rewrite Z.min_l by lia. reflexivity.
Qed.

(** ** The agent *)

Section AgentFacts.

Import Memory Agent.

Variable L : Lib.
Variable help_text : string.

(** [process] never returns the empty string. *)
Lemma process_nonempty (input p : string) :
  process input = Some p -> p <> "".
Proof.
  unfold process. destruct (String.eqb input ""); [discriminate|].
  unfold _validate. rewrite negb_involutive.
  destruct (String.eqb (_clean input) "") eqn:E; [discriminate|].
  intros [= <-]. apply String.eqb_neq. exact E.
Qed.

(** What [process_query] does on an input that is not a command. *)
Lemma process_query_calculation (m : MemoryManager) (now input p : string) :
  process input = Some p -> Spec.is_command p = false ->
  process_query L help_text m now input =
  match Parser.parse p with
  | Raise e => (Ok (format_error ("Parsing error: " ++ exn_message e)), m)
  | Ok None => (Ok format_parsing_error, m)
  | Ok (Some d) =>
      match Calculator.calculate L d with
      | Raise (ZeroDivisionError _) =>
          (Ok (format_error "Cannot divide by zero"), m)
      | Raise (ValueError msg) => (Ok (format_error msg), m)
      | Raise (OtherError msg) =>
          (Ok (format_error ("Calculation error: " ++ msg)), m)
      | Ok v =>
          (Ok (format_result L v input),
           add m input (str L v) (Parser.operation d) now)
      end
  end.
Proof.
  intros Hp Hc. pose proof (process_nonempty _ _ Hp) as Hne.
  unfold process_query. rewrite Hp.
  destruct p as [|c p]; [congruence|].
  unfold Spec.is_command in Hc. cbn [existsb] in Hc.
  apply orb_false_iff in Hc. destruct Hc as [H1 Hc].
  apply orb_false_iff in Hc. destruct Hc as [H2 Hc].
  apply orb_false_iff in Hc. destruct Hc as [H3 _].
  rewrite H1, H2, H3. reflexivity.
Qed.

End AgentFacts.

Section AgentCommands.

Import Memory Agent.

Variable L : Lib.
Variable help_text : string.

Lemma process_query_invalid (m : MemoryManager) (now input : string) :
  process input = None ->
  process_query L help_text m now input
  = (Ok (format_error "Invalid input"), m).
Proof. intros Hp. unfold process_query. rewrite Hp. reflexivity. Qed.

(** What [process_query] does on a built-in command. *)
Lemma process_query_command (m : MemoryManager) (now input p : string) :
  process input = Some p -> Spec.is_command p = true ->
  process_query L help_text m now input =
  if String.eqb (lower p) "help" then (Ok (format_help help_text), m)
  else if String.eqb (lower p) "history"
  then (Ok (format_history (get_history m (Some 10%Z))), m)
  else (Ok "History cleared!", clear m).
Proof.
  intros Hp Hc. pose proof (process_nonempty _ _ Hp) as Hne.
  unfold process_query. rewrite Hp.
  destruct p as [|c p]; [congruence|].
  unfold Spec.is_command in Hc. cbn [existsb] in Hc.
  destruct (String.eqb (lower (String c p)) "help"); [reflexivity|].
  destruct (String.eqb (lower (String c p)) "history"); [reflexivity|].
  destruct (String.eqb (lower (String c p)) "clear"); [reflexivity|].
  discriminate.
Qed.

End AgentCommands.






(** * Further properties *)

(** ** More on the history store *)

Section StoreExtras.

Import Memory Notions.



(** [get_last] is the head of the store read backwards. *)
Lemma get_last_rev (m : MemoryManager) :
  get_last m = hd_error (rev (_history m)).
Proof.
  unfold get_last.
  destruct (_history m) as [|x h] eqn:E; [reflexivity|].
  rewrite <- E.
  assert (Hne : _history m <> []) by (rewrite E; discriminate).
  destruct (exists_last Hne) as (h' & e & ->).
  rewrite last_last, rev_app_distr. reflexivity.
Qed.

End StoreExtras.

(** X1: for a positive limit, [get_history(limit)] is the list of the
    first [limit] entries of [get_history()], the newest first, and its
    length is the smaller of [limit] and the number of stored entries. *)
Theorem X1_get_history_limit (m : Memory.MemoryManager) (limit : Z) :
  (0 < limit)%Z ->
  Memory.get_history m (Some limit)
  = firstn (Z.to_nat limit) (Memory.get_history m None)
  /\ Z.of_nat (length (Memory.get_history m (Some limit)))
     = Z.min limit (Memory.count m).
Proof.
  intros Hl. rewrite get_history_positive by exact Hl.
  split; [reflexivity|].
  rewrite length_firstn, length_rev. unfold Memory.count. lia.
Qed.

Lemma X1_get_history_limit_witness :
  let m := Memory.run (Memory.init 100)
             [Memory.Add "1 + 1" "2.0" "add" "t0";
              Memory.Add "2 * 3" "6.0" "multiply" "t1";
              Memory.Add "9 / 3" "3.0" "divide" "t2"] in
  map Memory.query (Memory.get_history m (Some 2%Z)) = ["9 / 3"; "2 * 3"].
Proof.
  intros m.
  rewrite (proj1 (X1_get_history_limit m 2 ltac:(lia))). reflexivity.
Defined.

(** X2: a negative limit [-k] makes [get_history] leave out the [k] oldest
    entries: it returns the other entries, the newest first, and nothing
    when the store holds at most [k] entries. *)
Theorem X2_get_history_negative_limit (m : Memory.MemoryManager) (k : Z) :
  (0 < k)%Z ->
  Memory.get_history m (Some (- k)%Z)
  = rev (skipn (Z.to_nat k) (Memory._history m))
  /\ Z.of_nat (length (Memory.get_history m (Some (- k)%Z)))
     = Z.max 0 (Memory.count m - k).
Proof.
  intros Hk.
  assert (H : Memory.get_history m (Some (- k)%Z)
              = rev (skipn (Z.to_nat k) (Memory._history m))).
  { unfold Memory.get_history, Memory.slice_from. rewrite Z.opp_involutive.
    destruct (Z.ltb_spec k 0) as [Hneg|_]; [lia|].
    destruct (Z.le_ge_cases k (Z.of_nat (length (Memory._history m))))
      as [Hle|Hge].
    - rewrite Z.min_l by exact Hle. reflexivity.
    - rewrite Z.min_r by exact Hge. rewrite Nat2Z.id.
      rewrite skipn_all. rewrite skipn_all2 by lia. reflexivity. }
  split; [exact H|].
  rewrite H, length_rev, length_skipn. unfold Memory.count. lia.
Qed.

Lemma X2_get_history_negative_limit_witness :
  let m := Memory.run (Memory.init 100)
             [Memory.Add "1 + 1" "2.0" "add" "t0";
              Memory.Add "2 * 3" "6.0" "multiply" "t1";
              Memory.Add "9 / 3" "3.0" "divide" "t2"] in
  map Memory.query (Memory.get_history m (Some (- 1)%Z)) = ["9 / 3"; "2 * 3"].
Proof.
  intros m.
  exact (f_equal (map Memory.query)
           (proj1 (X2_get_history_negative_limit m 1 ltac:(lia)))).
Defined.

(** X3: [get_last] returns nothing exactly when the store is empty, and
    otherwise the entry that [get_history()] and [get_history(1)] list
    first. *)
Theorem X3_get_last_is_newest (m : Memory.MemoryManager) :
  (Memory.get_last m = None <-> Memory.count m = 0%Z)
  /\ Memory.get_last m = hd_error (Memory.get_history m None)
  /\ Memory.get_last m = hd_error (Memory.get_history m (Some 1%Z)).
Proof.
  pose proof (get_last_rev m) as Hlast.
  split; [|split].
  - unfold Memory.get_last, Memory.count.
    destruct (Memory._history m); simpl; split; try reflexivity;
      try discriminate; lia.
  - exact Hlast.
  - rewrite get_history_positive by lia. rewrite Hlast.
    destruct (rev (Memory._history m)); reflexivity.
Qed.

(** X4: in a store with room for at least one entry, [get_last] after [add]
    is the entry just added, whatever the store held. *)
Theorem X4_get_last_after_add (m : Memory.MemoryManager)
    (q r t now : string) :
  (1 <= Memory._max_history m)%Z ->
  Memory.get_last (Memory.add m q r t now)
  = Some {| Memory.query := q; Memory.result := r;
            Memory.operation_type := t; Memory.timestamp := now |}.
Proof.
  intros Hmax. rewrite get_last_rev.
  destruct (add_newest m q r t now Hmax) as (h & ->).
  rewrite rev_app_distr. reflexivity.
Qed.

Lemma X4_get_last_after_add_witness :
  Memory.get_last (Memory.add (Memory.init 1) "1 + 1" "2.0" "add" "t0")
  = Some {| Memory.query := "1 + 1"; Memory.result := "2.0";
            Memory.operation_type := "add"; Memory.timestamp := "t0" |}.
Proof.
  apply X4_get_last_after_add. simpl. lia.
Defined.

(** X5: a store whose capacity is zero or negative records nothing: after
    any sequence of [add] and [clear] it is empty. *)
Theorem X5_no_capacity_no_history (max_history : Z) (ops : list Memory.op) :
  (max_history <= 0)%Z ->
  Memory._history (Memory.run (Memory.init max_history) ops) = [].
Proof.
  intros Hmax.
  assert (H : forall m, Memory._max_history m = max_history ->
                        Memory._history m = [] ->
                        Memory._history (Memory.run m ops) = []).
  { induction ops as [|o ops IH]; intros m Hm Hh; [exact Hh|].
    unfold Memory.run in *. simpl. apply IH.
    - rewrite step_max. exact Hm.
    - destruct o as [q r t now|]; [|reflexivity].
      cbn [Memory.step]. rewrite add_history. cbv zeta. rewrite Hh, Hm.
      simpl.
      destruct (Z.gtb_spec 1 max_history) as [_|H]; [reflexivity|lia]. }
  apply H; reflexivity.
Qed.

Lemma X5_no_capacity_no_history_witness :
  Memory._history
    (Memory.run (Memory.init 0) [Memory.Add "1 + 1" "2.0" "add" "t0"]) = [].
Proof.
  apply X5_no_capacity_no_history. lia.
Defined.


(** X7: [search] with the empty keyword returns the whole store, in the
    order of insertion. *)
Theorem X7_search_empty_keyword (m : Memory.MemoryManager) :
  Memory.search m "" = Memory._history m.
Proof.
  unfold Memory.search. change (of_string (lower "")) with (@nil ascii).
  assert (H : forall hay, contains [] hay = true)
    by (intros [|c hay]; reflexivity).
  induction (Memory._history m) as [|e h IH]; simpl; [reflexivity|].
  rewrite H. simpl. f_equal. exact IH.
Qed.

Lemma X3_get_last_is_newest_witness :
  Memory.get_last (Memory.init 100) = None.
Proof.
  apply (proj1 (X3_get_last_is_newest (Memory.init 100))). reflexivity.
Defined.


(** ** Text *)

Section TextFacts.

Import Notions.

Lemma of_string_app (a b : string) :
  of_string (a ++ b)%string = of_string a ++ of_string b.
Proof.
  unfold of_string. induction a as [|c a IH]; simpl; [reflexivity|].
  rewrite IH. reflexivity.
Qed.

Lemma of_to_string (t : text) : of_string (to_string t) = t.
Proof. apply list_ascii_of_string_of_list_ascii. Qed.

Lemma to_of_string (s : string) : to_string (of_string s) = s.
Proof. apply string_of_list_ascii_of_string. Qed.

Lemma of_string_lower (s : string) :
  of_string (lower s) = map lower_char (of_string s).
Proof. unfold lower. apply of_to_string. Qed.

Lemma lower_app (a b : string) :
  lower (a ++ b)%string = (lower a ++ lower b)%string.
Proof.
  rewrite <- (to_of_string (lower a ++ lower b)%string).
  rewrite of_string_app, !of_string_lower.
  unfold lower. rewrite of_string_app, map_app. reflexivity.
Qed.

Lemma lower_char_idem (c : ascii) : lower_char (lower_char c) = lower_char c.
Proof. destruct c as [[] [] [] [] [] [] [] []]; reflexivity. Qed.

Lemma lower_idem (s : string) : lower (lower s) = lower s.
Proof.
  unfold lower at 1. rewrite of_string_lower, map_map.
  unfold lower. f_equal. apply map_ext. apply lower_char_idem.
Qed.

Lemma is_space_lower (c : ascii) : is_space (lower_char c) = is_space c.
Proof. destruct c as [[] [] [] [] [] [] [] []]; reflexivity. Qed.


Lemma blank_lower (t : text) : blank (map lower_char t) = blank t.
Proof.
  unfold blank. induction t as [|c t IH]; simpl; [reflexivity|].
  rewrite is_space_lower, IH. reflexivity.
Qed.

End TextFacts.



(** ** The input processor *)

Section InputFacts.

Import Agent Notions.

Lemma lstrip_app (t u : text) :
  lstrip (t ++ u) = if blank t then lstrip u else lstrip t ++ u.
Proof.
  unfold blank. induction t as [|c t IH]; simpl; [reflexivity|].
  destruct (is_space c); simpl; [exact IH | reflexivity].
Qed.

Lemma lstrip_blank (t : text) : blank t = true -> lstrip t = [].
Proof.
  intros H. rewrite <- (app_nil_r t), lstrip_app, H. reflexivity.
Qed.


Lemma lstrip_head (t : text) :
  match lstrip t with
  | [] => True
  | c :: _ => is_space c = false
  end.
Proof.
  induction t as [|c t IH]; simpl; [exact I|].
  destruct (is_space c) eqn:E; [exact IH | exact E].
Qed.

Lemma lstrip_fixed (t : text) :
  match t with [] => True | c :: _ => is_space c = false end ->
  lstrip t = t.
Proof. destruct t as [|c t]; simpl; [reflexivity|]. intros ->. reflexivity. Qed.

Lemma blank_rev (t : text) : blank (rev t) = blank t.
Proof.
  unfold blank. induction t as [|c t IH]; simpl; [reflexivity|].
  rewrite forallb_app, IH. simpl. rewrite andb_true_r. apply andb_comm.
Qed.


(** The text is its stripped form between two blank margins. *)
Lemma lstrip_split (t : text) :
  exists ws, t = ws ++ lstrip t /\ blank ws = true.
Proof.
  induction t as [|c t (ws & IH1 & IH2)]; simpl.
  - exists []. auto.
  - destruct (is_space c) eqn:E.
    + exists (c :: ws). simpl. unfold blank in *. simpl.
      rewrite E, IH2, <- IH1. auto.
    + exists []. auto.
Qed.


(** Blank margins do not change the stripped text. *)
Lemma strip_margins (pre t post : text) :
  blank pre = true -> blank post = true ->
  strip (pre ++ t ++ post) = strip t.
Proof.
  intros Hpre Hpost. unfold strip.
  rewrite lstrip_app, Hpre, lstrip_app.
  destruct (blank t) eqn:Ht.
  - rewrite (lstrip_blank post Hpost), (lstrip_blank t Ht). reflexivity.
  - rewrite rev_app_distr, lstrip_app, blank_rev, Hpost. reflexivity.
Qed.

Lemma strip_head (t : text) :
  match strip t with
  | [] => True
  | c :: _ => is_space c = false
  end.
Proof.
  unfold strip.
  destruct (lstrip_split (rev (lstrip t))) as (ws & Hrev & Hws).
  set (u := lstrip (rev (lstrip t))) in *.
  pose proof (lstrip_head t) as Hh.
  apply (f_equal (@rev ascii)) in Hrev. rewrite rev_involutive in Hrev.
  rewrite rev_app_distr in Hrev.
  destruct (rev u) as [|c r] eqn:Eu; [exact I|].
  rewrite Hrev in Hh. exact Hh.
Qed.

Lemma strip_last (t : text) :
  match rev (strip t) with
  | [] => True
  | c :: _ => is_space c = false
  end.
Proof. unfold strip. rewrite rev_involutive. apply lstrip_head. Qed.

Lemma strip_fixed (t : text) :
  match t with [] => True | c :: _ => is_space c = false end ->
  match rev t with [] => True | c :: _ => is_space c = false end ->
  strip t = t.
Proof.
  intros Hh Hl. unfold strip. rewrite (lstrip_fixed t Hh).
  rewrite (lstrip_fixed (rev t) Hl). apply rev_involutive.
Qed.

Lemma collapse_snoc (b : bool) (u : text) (c : ascii) :
  is_space c = false -> collapse b (u ++ [c]) = collapse b u ++ [c].
Proof.
  intros Hc. revert b; induction u as [|x u IH]; intros b; simpl.
  - rewrite Hc. reflexivity.
  - destruct (is_space x); [destruct b|]; simpl; rewrite IH; reflexivity.
Qed.


(** The output of [collapse] is single-spaced; started inside a run of
    whitespace, it does not begin with a space. *)
Lemma collapse_single_spaced (t : text) :
  forall b,
    single_spaced (collapse b t) = true
    /\ (b = true ->
        match collapse b t with
        | [] => True
        | c :: _ => is_space c = false
        end).
Proof.
  induction t as [|x t IH]; intros b; simpl; [auto|].
  destruct (is_space x) eqn:Ex.
  - destruct (IH true) as (H1 & H2). specialize (H2 eq_refl).
    destruct b.
    + split; [exact H1 | intros _; exact H2].
    + split; [|discriminate]. simpl.
      destruct (collapse true t) as [|d r]; [reflexivity|].
      rewrite H2. simpl. exact H1.
  - destruct (IH false) as (H1 & _). split; [|intros _; exact Ex].
    simpl. rewrite Ex. exact H1.
Qed.

Lemma collapse_fixed (t : text) :
  forall b,
    single_spaced t = true ->
    (b = true -> match t with [] => True | c :: _ => is_space c = false end) ->
    collapse b t = t.
Proof.
  induction t as [|x t IH]; intros b Hs Hb; simpl; [reflexivity|].
  simpl in Hs. apply andb_true_iff in Hs. destruct Hs as [Hx Hs].
  destruct (is_space x) eqn:Ex.
  - apply andb_true_iff in Hx. destruct Hx as [Hsp Hnext].
    apply Ascii.eqb_eq in Hsp. subst x.
    destruct b; [specialize (Hb eq_refl); discriminate|].
    f_equal. apply IH; [exact Hs|]. intros _.
    destruct t as [|d t]; [exact I|]. apply negb_true_iff. exact Hnext.
  - f_equal. apply IH; [exact Hs | discriminate].
Qed.




(** The cleaned text of a non-blank input. *)
Lemma process_some (input p : string) :
  process input = Some p ->
  of_string p = collapse false (strip (of_string input)) /\ p <> "".
Proof.
  intros H. split; [|eapply process_nonempty; eauto].
  unfold process in H. destruct (String.eqb input ""); [discriminate|].
  destruct (negb (_validate (_clean input))); [discriminate|].
  injection H as <-. unfold _clean. apply of_to_string.
Qed.


End InputFacts.



Section CleanForm.

Import Agent Notions.

Lemma process_clean_form (input p : string) :
  process input = Some p -> clean_form (of_string p) = true.
Proof.
  intros H. destruct (process_some _ _ H) as (Hp & _). rewrite Hp.
  set (u := strip (of_string input)).
  pose proof (strip_head (of_string input)) as Hh.
  pose proof (strip_last (of_string input)) as Hl.
  fold u in Hh, Hl.
  unfold clean_form.
  rewrite (proj1 (collapse_single_spaced u false)). simpl.
  apply andb_true_iff. split.
  - destruct u as [|c u']; [reflexivity|]. simpl. rewrite Hh. simpl.
    rewrite Hh. reflexivity.
  - destruct (rev u) as [|c r] eqn:Er.
    + apply (f_equal (@rev ascii)) in Er. rewrite rev_involutive in Er.
      rewrite Er. reflexivity.
    + apply (f_equal (@rev ascii)) in Er. rewrite rev_involutive in Er.
      simpl in Er. rewrite Er, collapse_snoc by exact Hl.
      rewrite rev_app_distr. simpl. rewrite Hl. reflexivity.
Qed.

Lemma process_fixed (p : string) :
  clean_form (of_string p) = true -> p <> "" -> process p = Some p.
Proof.
  unfold clean_form. intros H Hne.
  apply andb_true_iff in H. destruct H as [H Hl].
  apply andb_true_iff in H. destruct H as [Hs Hh].
  assert (Hh' : match of_string p with
                | [] => True | c :: _ => is_space c = false end).
  { destruct (of_string p); [exact I | apply negb_true_iff; exact Hh]. }
  assert (Hl' : match rev (of_string p) with
                | [] => True | c :: _ => is_space c = false end).
  { destruct (rev (of_string p)); [exact I | apply negb_true_iff; exact Hl]. }
  unfold process. apply String.eqb_neq in Hne. rewrite Hne.
  unfold _clean, _validate.
  rewrite (strip_fixed _ Hh' Hl'), (collapse_fixed _ false Hs) by discriminate.
  rewrite to_of_string, Hne. reflexivity.
Qed.

End CleanForm.

(** X10: the text returned by [process] has no whitespace at either end,
    no whitespace character other than the space, and no two spaces in a
    row. *)
Theorem X10_process_clean_form (input p : string) :
  Agent.process input = Some p ->
  Notions.clean_form (of_string p) = true.
Proof. apply process_clean_form. Qed.

Lemma X10_process_clean_form_witness :
  Notions.clean_form (of_string "What's 2 + 2?") = true.
Proof.
  apply (X10_process_clean_form
           (String (ascii_of_nat 9) "  What's   2 +  2?  ")).
  reflexivity.
Defined.

(** X11: [process] is idempotent: a text it returns is returned unchanged
    when processed again. *)
Theorem X11_process_idempotent (input p : string) :
  Agent.process input = Some p -> Agent.process p = Some p.
Proof.
  intros H. apply process_fixed.
  - eapply process_clean_form; eauto.
  - eapply process_nonempty; eauto.
Qed.

Lemma X11_process_idempotent_witness :
  Agent.process "What's 2 + 2?" = Some "What's 2 + 2?".
Proof.
  apply (X11_process_idempotent "  What's   2 +  2?  "). reflexivity.
Defined.



(** X13: [is_exit_command] does not depend on the case of the text nor on
    whitespace around it. *)
Theorem X13_exit_command_margins (pre s post : string) :
  Notions.blank (of_string pre) = true ->
  Notions.blank (of_string post) = true ->
  Agent.is_exit_command (pre ++ s ++ post)%string = Agent.is_exit_command s
  /\ Agent.is_exit_command (lower s) = Agent.is_exit_command s.
Proof.
  intros Hpre Hpost. unfold Agent.is_exit_command. split.
  - rewrite !lower_app, !of_string_app.
    rewrite strip_margins; [reflexivity| |];
      rewrite of_string_lower, blank_lower; assumption.
  - rewrite lower_idem. reflexivity.
Qed.

Lemma X13_exit_command_margins_witness :
  Agent.is_exit_command "  Quit " = Agent.is_exit_command "Quit".
Proof.
  apply (X13_exit_command_margins "  " "Quit" " "); reflexivity.
Defined.

(** ** More on the agent *)

Section AgentExtras.

Import Memory Agent.

Variable L : Lib.
Variable help_text : string.

Lemma format_result_query (v : num) (q q' : string) :
  format_result L v q = format_result L v q'.
Proof. reflexivity. Qed.

(** One query keeps the capacity and the bound on the length. *)
Lemma process_query_bound (m : MemoryManager) (now input : string) :
  (0 <= _max_history m)%Z -> (count m <= _max_history m)%Z ->
  let m' := snd (process_query L help_text m now input) in
  _max_history m' = _max_history m /\ (count m' <= _max_history m')%Z.
Proof.
  intros Hmax Hc m'. subst m'.
  destruct (process input) as [p|] eqn:Hp.
  - destruct (Spec.is_command p) eqn:Hcmd.
    + rewrite (process_query_command L help_text m now input p Hp Hcmd).
      destruct (String.eqb (lower p) "help"); [auto|].
      destruct (String.eqb (lower p) "history"); [auto|].
      simpl. split; [reflexivity|]. unfold count. simpl. exact Hmax.
    + rewrite (process_query_calculation L help_text m now input p Hp Hcmd).
      destruct (Parser.parse p) as [[d|]|e]; [|auto|auto].
      destruct (Calculator.calculate L d) as [v|[msg|msg|msg]]; [|auto|auto|auto].
      cbn [snd]. split; [reflexivity|].
      unfold count in *. rewrite add_history. cbv zeta.
      set (h := _history m ++ _).
      assert (Hh : length h = S (length (_history m)))
        by (unfold h; rewrite length_app; simpl; lia).
      cbn [_max_history add].
      destruct (Z.gtb_spec (Z.of_nat (length h)) (_max_history m)) as [H|H].
      * destruct h as [|x h']; simpl in *; lia.
      * exact H.
  - rewrite process_query_invalid by exact Hp. auto.
Qed.

End AgentExtras.

(** ** More on the parser *)

Section ParserExtras.

Import Shape Parser Notions.

Lemma parse_patterns_none (op : string) (pats : list regex) (s : text)
    (input : string) :
  parse_patterns op pats s input = Ok None <-> any_match pats s = false.
Proof.
  unfold any_match. induction pats as [|p pats IH]; simpl.
  - split; reflexivity.
  - destruct (search p s) as [m|]; simpl.
    + destruct (floats (groups p m)); simpl; split; discriminate.
    + exact IH.
Qed.

Lemma parse_patterns_match (op : string) (pats : list regex) (s : text)
    (input : string) (d : parsed_data) :
  parse_patterns op pats s input = Ok (Some d) ->
  operation d = op /\ any_match pats s = true.
Proof.
  intros H. destruct (any_match pats s) eqn:E.
  - apply parse_patterns_some in H.
    destruct H as (p & m & ops & _ & _ & _ & ->). auto.
  - apply (parse_patterns_none op pats s input) in E. congruence.
Qed.

Lemma parse_table_none (tbl : list (string * list regex)) (s : text)
    (input : string) :
  parse_table tbl s input = Ok None
  <-> forallb (fun e => negb (any_match (snd e) s)) tbl = true.
Proof.
  induction tbl as [|[op pats] tbl IH]; simpl.
  - split; reflexivity.
  - destruct (parse_patterns op pats s input) as [[d|]|e] eqn:E; simpl.
    + apply parse_patterns_match in E. destruct E as [_ E]. rewrite E.
      simpl. split; discriminate.
    + apply parse_patterns_none in E. rewrite E. simpl. exact IH.
    + destruct (any_match pats s) eqn:E'.
      * simpl. split; discriminate.
      * apply (parse_patterns_none op pats s input) in E'. congruence.
Qed.

(** The operation returned is the first of the table with a pattern that
    matches. *)
Lemma parse_table_first (tbl : list (string * list regex)) (s : text)
    (input : string) (d : parsed_data) :
  parse_table tbl s input = Ok (Some d) ->
  exists before pats after,
    tbl = before ++ (operation d, pats) :: after
    /\ Forall (fun e => any_match (snd e) s = false) before
    /\ any_match pats s = true.
Proof.
  induction tbl as [|[op pats] tbl IH]; simpl; [discriminate|].
  destruct (parse_patterns op pats s input) as [[d'|]|e] eqn:E; simpl.
  - intros [= <-]. apply parse_patterns_match in E. destruct E as [<- E].
    exists [], pats, tbl. auto.
  - intros H. destruct (IH H) as (before & pats' & after & -> & HF & Hm).
    apply parse_patterns_none in E.
    exists ((op, pats) :: before), pats', after. auto.
  - discriminate.
Qed.

Lemma can_handle_any_match (input : string) :
  can_handle input
  = existsb (fun e => any_match (snd e) (of_string (lower input))) patterns.
Proof. reflexivity. Qed.

Lemma existsb_forallb_negb {A : Type} (f : A -> bool) (l : list A) :
  existsb f l = negb (forallb (fun x => negb (f x)) l).
Proof.
  induction l as [|x l IH]; simpl; [reflexivity|].
  rewrite IH. destruct (f x); reflexivity.
Qed.






(** What [parse] returns, in terms of the pattern that matched. *)
Lemma parse_operands (input : string) (d : parsed_data) :
  parse input = Ok (Some d) ->
  exists pats p qs,
    In (operation d, pats) patterns /\ In p pats
    /\ length qs = ngroups p
    /\ Forall (fun q => (0 <= q)%Q) qs
    /\ operands d = _handle_special_cases (operation d) (map PyFloat qs)
    /\ original_text d = input.
Proof.
  intros Hp. unfold parse in Hp. apply parse_table_some in Hp.
  destruct Hp as (op & pats & p & m & ops & H1 & H2 & H3 & H4 & ->).
  pose proof (search_numeric p _ m (table_numeric _ _ _ H1 H2) H3) as HF.
  destruct (floats_unsigned _ HF) as (qs & Hqs & Hpos & Hlen).
  assert (ops = map PyFloat qs) by congruence. subst ops.
  rewrite groups_length in Hlen.
  exists pats, p, qs. simpl. auto 10.
Qed.


Lemma table_supported (op : string) (pats : list regex) :
  In (op, pats) patterns -> Calculator.supports_operation op = true.
Proof.
  assert (H : forallb (fun e => Calculator.supports_operation (fst e))
                patterns = true) by (vm_compute; reflexivity).
  rewrite forallb_forall in H. intros H1. exact (H _ H1).
Qed.



End ParserExtras.

(** X14: [can_handle] answers yes exactly on the inputs for which [parse]
    returns a request. *)
Theorem X14_can_handle_iff_parse (input : string) :
  Parser.can_handle input = true
  <-> exists d, Parser.parse input = Ok (Some d).
Proof.
  rewrite can_handle_any_match, existsb_forallb_negb, negb_true_iff.
  destruct (parse_returns input) as ([d|] & Hr).
  - split; [eauto|]. intros _.
    destruct (forallb _ Parser.patterns) eqn:E; [|reflexivity].
    apply parse_table_none with (input := input) in E.
    unfold Parser.parse in Hr. congruence.
  - split.
    + intros E. unfold Parser.parse in Hr.
      apply parse_table_none in Hr. congruence.
    + intros (d & Hd). congruence.
Qed.

Lemma X14_can_handle_iff_parse_witness :
  Parser.can_handle "What's 25 + 17?" = true.
Proof.
  apply X14_can_handle_iff_parse. eexists. vm_compute. reflexivity.
Defined.

(** X15: the operation of the request that [parse] returns is the first
    operation of the table, in declaration order, one of whose patterns
    matches the lower-cased input: no pattern of an earlier operation
    matches. *)
Theorem X15_parse_first_match (input : string) (d : Parser.parsed_data) :
  Parser.parse input = Ok (Some d) ->
  exists before pats after,
    Parser.patterns = before ++ (Parser.operation d, pats) :: after
    /\ Forall (fun e => Notions.any_match (snd e) (of_string (lower input))
                        = false) before
    /\ Notions.any_match pats (of_string (lower input)) = true.
Proof. apply parse_table_first. Qed.

Lemma X15_parse_first_match_witness :
  exists before pats after,
    Parser.patterns = before ++ ("log", pats) :: after
    /\ Forall (fun e => Notions.any_match (snd e)
                          (of_string (lower "natural log of 10")) = false)
              before
    /\ Notions.any_match pats (of_string (lower "natural log of 10")) = true.
Proof.
  apply (X15_parse_first_match "natural log of 10"
           {| Parser.operation := "log";
              Parser.operands := [PyFloat (10 # 1)];
              Parser.original_text := "natural log of 10" |}).
  vm_compute. reflexivity.
Defined.



(** X17: every request that [parse] returns carries the input text as it
    was given, names an operation that the calculator supports, and has the
    number of operands that this operation accepts. *)
Theorem X17_parsed_request_well_formed (input : string)
    (d : Parser.parsed_data) :
  Parser.parse input = Ok (Some d) ->
  Parser.original_text d = input
  /\ Calculator.supports_operation (Parser.operation d) = true
  /\ Notions.arity_ok (Parser.operation d) (length (Parser.operands d))
     = true.
Proof.
  intros Hp.
  destruct (parse_operands _ _ Hp)
    as (pats & p & qs & H1 & H2 & Hl & _ & Ho & Ht).
  split; [exact Ht|]. split; [eapply table_supported; eauto|].
  assert (H : forallb
                (fun e =>
                   forallb
                     (fun p =>
                        Notions.arity_ok (fst e)
                          (if (String.eqb (fst e) "square"
                               || String.eqb (fst e) "cube")
                              && Nat.eqb (ngroups p) 1
                           then 2 else ngroups p)) (snd e))
                Parser.patterns = true) by (vm_compute; reflexivity).
  rewrite forallb_forall in H. specialize (H _ H1). cbn [fst snd] in H.
  rewrite forallb_forall in H. specialize (H _ H2).
  rewrite Ho. unfold Parser._handle_special_cases.
  rewrite length_map, Hl.
  destruct (String.eqb (Parser.operation d) "square");
    destruct (String.eqb (Parser.operation d) "cube");
    destruct (Nat.eqb (ngroups p) 1) eqn:E; simpl in *;
    rewrite ?length_map, ?Hl; exact H.
Qed.

Lemma X17_parsed_request_well_formed_witness :
  let d := {| Parser.operation := "square";
              Parser.operands := [PyFloat (5 # 1); PyInt 2];
              Parser.original_text := "5 Squared" |} in
  Parser.parse "5 Squared" = Ok (Some d)
  /\ Parser.original_text d = "5 Squared"
  /\ Calculator.supports_operation (Parser.operation d) = true
  /\ Notions.arity_ok (Parser.operation d) (length (Parser.operands d))
     = true.
Proof.
  intros d.
  assert (Hp : Parser.parse "5 Squared" = Ok (Some d))
    by (vm_compute; reflexivity).
  split; [exact Hp|].
  exact (X17_parsed_request_well_formed "5 Squared" d Hp).
Defined.

(** X18: for every supported operation, [calculate] raises a [ValueError]
    when the number of operands is not one the operation accepts: fewer
    than two for [add] and [multiply], other than two for [subtract],
    [divide], [power], [square] and [cube], other than one for the rest. *)
Theorem X18_calculate_arity_error (L : Lib) (operation : string)
    (operands : list num) (t : string) :
  Calculator.supports_operation operation = true ->
  Notions.arity_ok operation (length operands) = false ->
  exists msg,
    Calculator.calculate L
      {| Parser.operation := operation; Parser.operands := operands;
         Parser.original_text := t |}
    = Raise (ValueError msg).
Proof.
  intros Hs Ha. unfold Calculator.supports_operation in Hs.
  apply existsb_exists in Hs. destruct Hs as (op & Hin & Heq).
  apply String.eqb_eq in Heq. subst op.
  unfold Calculator.supported_operations in Hin. simpl in Hin.
  repeat (destruct Hin as [<- | Hin];
          [destruct operands as [|a [|b [|c operands]]];
           try discriminate Ha; eexists; reflexivity|]).
  contradiction.
Qed.

Lemma X18_calculate_arity_error_witness :
  exists msg,
    Calculator.calculate no_lib
      {| Parser.operation := "subtract";
         Parser.operands := [PyFloat (1 # 1); PyFloat (2 # 1); PyFloat (3 # 1)];
         Parser.original_text := "" |}
    = Raise (ValueError msg).
Proof.
  apply X18_calculate_arity_error; reflexivity.
Defined.






Section UnaryRequests.

Import Parser Calculator.

Variable L : Lib.



End UnaryRequests.



(** X22: one call of [process_query], whatever the input, keeps the
    capacity of the store and the bound of its length by the capacity. *)
Theorem X22_process_query_keeps_bound (L : Lib) (help_text : string)
    (m : Memory.MemoryManager) (now input : string) :
  (0 <= Memory._max_history m)%Z ->
  (Memory.count m <= Memory._max_history m)%Z ->
  let m' := snd (Agent.process_query L help_text m now input) in
  Memory._max_history m' = Memory._max_history m
  /\ (Memory.count m' <= Memory._max_history m')%Z.
Proof. apply process_query_bound. Qed.

Lemma X22_process_query_keeps_bound_witness :
  let m := Memory.add (Memory.init 1) "1 + 1" "2.0" "add" "t0" in
  (Memory.count
     (snd (Agent.process_query no_lib "" m "t1" "2 + 2")) <= 1)%Z.
Proof.
  intros m.
  destruct (X22_process_query_keeps_bound no_lib "" m "t1" "2 + 2")
    as (H1 & H2).
  - simpl. lia.
  - vm_compute. discriminate.
  - rewrite H1 in H2. exact H2.
Defined.

(** X23: the response of [process_query] depends on the input only through
    its cleaned form: two inputs that [process] maps to the same text get the
    same response from the same store, at any time. *)
Theorem X23_response_of_cleaned_input (L : Lib) (help_text : string)
    (m : Memory.MemoryManager) (now now' a b : string) :
  Agent.process a = Agent.process b ->
  fst (Agent.process_query L help_text m now a)
  = fst (Agent.process_query L help_text m now' b).
Proof.
  intros Hab. destruct (Agent.process a) as [p|] eqn:Ha; symmetry in Hab.
  - destruct (Spec.is_command p) eqn:Hc.
    + rewrite (process_query_command L help_text m now a p Ha Hc).
      rewrite (process_query_command L help_text m now' b p Hab Hc).
      destruct (String.eqb (lower p) "help"); [reflexivity|].
      destruct (String.eqb (lower p) "history"); reflexivity.
    + rewrite (process_query_calculation L help_text m now a p Ha Hc).
      rewrite (process_query_calculation L help_text m now' b p Hab Hc).
      destruct (Parser.parse p) as [[d|]|e]; try reflexivity.
      destruct (Calculator.calculate L d) as [v|[msg|msg|msg]]; reflexivity.
  - rewrite (process_query_invalid L help_text m now a Ha).
    rewrite (process_query_invalid L help_text m now' b Hab). reflexivity.
Qed.

Lemma X23_response_of_cleaned_input_witness :
  fst (Agent.process_query no_lib "" (Memory.init 100) "t0" "  10   /  4 ")
  = fst (Agent.process_query no_lib "" (Memory.init 100) "t1" "10 / 4").
Proof.
  apply X23_response_of_cleaned_input. reflexivity.
Defined.

(** X24: the command [history], in any case and with any whitespace around
    it, leaves the store as it is and answers with the rendering of the ten
    newest entries at most, the newest first; on an empty store the answer
    is "No calculation history yet.". *)
Theorem X24_history_command (L : Lib) (help_text : string)
    (m : Memory.MemoryManager) (now input p : string) :
  Agent.process input = Some p -> lower p = "history" ->
  Agent.process_query L help_text m now input
  = (Ok (Agent.format_history (firstn 10 (rev (Memory._history m)))), m)
  /\ (Memory._history m = [] ->
      fst (Agent.process_query L help_text m now input)
      = Ok "No calculation history yet.").
Proof.
  intros Hp Hl.
  assert (Hc : Spec.is_command p = true).
  { unfold Spec.is_command. rewrite Hl. reflexivity. }
  rewrite (process_query_command L help_text m now input p Hp Hc), Hl.
  cbn [String.eqb Ascii.eqb Bool.eqb].
  rewrite get_history_positive by lia.
  split; [reflexivity|]. intros ->. reflexivity.
Qed.

Lemma X24_history_command_witness :
  fst (Agent.process_query no_lib "" (Memory.init 100) "t0" "  History ")
  = Ok "No calculation history yet.".
Proof.
  apply (X24_history_command no_lib "" (Memory.init 100) "t0" "  History "
           "History"); reflexivity.
Defined.

Section NoDigit.

Import Agent Notions.




End NoDigit.



(** ** The terminal session *)

Section Session.

Import Memory Agent Terminal.

Variable L : Lib.
Variable help_text goodbye_text : string.

Lemma run_loop_exit (m : MemoryManager) (pre post : list (string * string))
    (now x : string) :
  is_exit_command x = true ->
  Forall (fun i => is_exit_command (snd i) = false) pre ->
  run_loop L help_text goodbye_text m (pre ++ (now, x) :: post)
  = run_loop L help_text goodbye_text m pre.
Proof.
  intros Hx Hpre. revert m.
  induction Hpre as [|[now' y] pre Hy _ IH]; intros m; simpl.
  - rewrite Hx. reflexivity.
  - simpl in Hy. rewrite Hy.
    destruct (process_query L help_text m now' y) as [[response|e] m'];
      rewrite IH; reflexivity.
Qed.


End Session.

(** X26: a terminal session ends at the first exit command: the lines
    typed after it change neither what is printed nor the store, and the
    end of the input has the same effect as an exit command. *)
Theorem X26_session_ends_at_exit (L : Lib)
    (help_text welcome_text goodbye_text : string)
    (m : Memory.MemoryManager) (pre post : list (string * string))
    (now x : string) :
  Agent.is_exit_command x = true ->
  Forall (fun i => Agent.is_exit_command (snd i) = false) pre ->
  Terminal.run L help_text welcome_text goodbye_text m
    (pre ++ (now, x) :: post)
  = Terminal.run L help_text welcome_text goodbye_text m pre.
Proof.
  intros Hx Hpre. unfold Terminal.run.
  rewrite run_loop_exit by assumption. reflexivity.
Qed.

Lemma X26_session_ends_at_exit_witness :
  Terminal.run no_lib "" "Welcome" "Goodbye" (Memory.init 100)
    [("t0", "1 + 1"); ("t1", " EXIT "); ("t2", "2 + 2")]
  = Terminal.run no_lib "" "Welcome" "Goodbye" (Memory.init 100)
      [("t0", "1 + 1")].
Proof.
  apply (X26_session_ends_at_exit no_lib "" "Welcome" "Goodbye"
           (Memory.init 100) [("t0", "1 + 1")] [("t2", "2 + 2")] "t1"
           " EXIT ").
  - reflexivity.
  - repeat constructor.
Defined.



(** ** Rendering of integers *)

Section Rendering.

Import Agent.

Lemma string_of_uint_revapp (l acc : Decimal.uint) :
  NilEmpty.string_of_uint (Decimal.revapp l acc)
  = (NilEmpty.string_of_uint (Decimal.revapp l Decimal.Nil)
     ++ NilEmpty.string_of_uint acc)%string.
Proof.
  assert (Happ : forall a b c : string,
             ((a ++ b) ++ c)%string = (a ++ (b ++ c))%string).
  { intros a b c. induction a as [|x a IH]; simpl; [reflexivity|].
    rewrite IH. reflexivity. }
  revert acc; induction l as [|l IH|l IH|l IH|l IH|l IH|l IH|l IH|l IH|l IH|l IH];
    intros acc; simpl.
  - reflexivity.
  - rewrite (IH (Decimal.D0 acc)), (IH (Decimal.D0 Decimal.Nil)), Happ.
    reflexivity.
  - rewrite (IH (Decimal.D1 acc)), (IH (Decimal.D1 Decimal.Nil)), Happ.
    reflexivity.
  - rewrite (IH (Decimal.D2 acc)), (IH (Decimal.D2 Decimal.Nil)), Happ.
    reflexivity.
  - rewrite (IH (Decimal.D3 acc)), (IH (Decimal.D3 Decimal.Nil)), Happ.
    reflexivity.
  - rewrite (IH (Decimal.D4 acc)), (IH (Decimal.D4 Decimal.Nil)), Happ.
    reflexivity.
  - rewrite (IH (Decimal.D5 acc)), (IH (Decimal.D5 Decimal.Nil)), Happ.
    reflexivity.
  - rewrite (IH (Decimal.D6 acc)), (IH (Decimal.D6 Decimal.Nil)), Happ.
    reflexivity.
  - rewrite (IH (Decimal.D7 acc)), (IH (Decimal.D7 Decimal.Nil)), Happ.
    reflexivity.
  - rewrite (IH (Decimal.D8 acc)), (IH (Decimal.D8 Decimal.Nil)), Happ.
    reflexivity.
  - rewrite (IH (Decimal.D9 acc)), (IH (Decimal.D9 Decimal.Nil)), Happ.
    reflexivity.
Qed.

Lemma nilzero_nonnil (d : Decimal.uint) :
  d <> Decimal.Nil ->
  NilZero.string_of_uint d = NilEmpty.string_of_uint d.
Proof. destruct d; [congruence | reflexivity ..]. Qed.

(** The decimal numeral of ten times a positive integer is the numeral of
    the integer followed by the digit 0. *)
Lemma str_int_tenfold (p : positive) :
  str_int (10 * Z.pos p) = (str_int (Z.pos p) ++ "0")%string.
Proof.
  unfold str_int. change (10 * Z.pos p)%Z with (Z.pos (10 * p)).
  cbn [Z.to_int NilZero.string_of_int].
  rewrite !nilzero_nonnil by apply DecimalPos.Unsigned.to_uint_nonnil.
  unfold Pos.to_uint.
  pose proof (DecimalPos.Unsigned.to_ldec_tenfold p) as H.
  change (DecimalPos.Unsigned.to_lu (10 * N.pos p))
    with (Pos.to_little_uint (10 * p)) in H.
  change (DecimalPos.Unsigned.to_lu (N.pos p))
    with (Pos.to_little_uint p) in H.
  rewrite H. unfold Decimal.rev. cbn [Decimal.revapp].
  rewrite string_of_uint_revapp. reflexivity.
Qed.

Lemma rstrip_snoc (c : ascii) (s : string) :
  rstrip c (s ++ String c "")%string = rstrip c s.
Proof.
  unfold rstrip. rewrite of_string_app. change (of_string (String c ""))
    with [c].
  rewrite rev_app_distr. simpl. rewrite Ascii.eqb_refl. reflexivity.
Qed.

End Rendering.

(** X28: [_format_number] strips the trailing zeros of an [int]: for every
    positive integer [z], the answer shown for [10 * z] is the answer shown
    for [z]. *)
Theorem X28_format_int_drops_zeros (L : Lib) (z : Z) (query : string) :
  (0 < z)%Z ->
  Agent.format_result L (PyInt (10 * z)) query
  = Agent.format_result L (PyInt z) query.
Proof.
  intros Hz. destruct z as [|p|p]; try lia.
  unfold Agent.format_result, Agent._format_number.
  rewrite str_int_tenfold, rstrip_snoc. reflexivity.
Qed.

Lemma X28_format_int_drops_zeros_witness :
  Agent.format_result no_lib (PyInt 120) "5 factorial" = "The answer is 12".
Proof.
  exact (eq_trans
           (X28_format_int_drops_zeros no_lib 12 "5 factorial" ltac:(lia))
           eq_refl).
Defined.

(** ** The numbers of a text *)

Section ExtractNumbers.

Import Shape BaseParser Notions.

Lemma number_pattern_shape :
  number_pattern = Seq (Opt (lit "-")) number.
Proof. reflexivity. Qed.

(** A match of the pattern is an unsigned decimal, possibly after a minus
    sign. *)
Lemma number_pattern_sound (s : text) (c : captures) (s' : text)
    (c' : captures) :
  In (s', c') (rmatch number_pattern s c) ->
  unsigned_decimal (consumed s s') = true
  \/ exists t, consumed s s' = "-"%char :: t /\ unsigned_decimal t = true.
Proof.
  rewrite number_pattern_shape. unfold lit. intros Hin.
  apply in_rmatch_seq in Hin. destruct Hin as (s1 & c1 & H1 & H2).
  pose proof (number_sound _ _ _ _ H2) as Hn.
  destruct (rmatch_suffix _ _ _ _ _ H2) as (t & ->).
  rewrite consumed_app in Hn.
  apply in_rmatch_opt_chr in H1. cbn [fst] in H1.
  destruct H1 as [(y & Hy & ->) | <-].
  - right. exists t. split; [|exact Hn].
    assert (y = "-"%char).
    { revert Hy. clear. destruct y as [[] [] [] [] [] [] [] []];
        vm_compute; congruence. }
    subst y. change ("-"%char :: t ++ s') with (("-"%char :: t) ++ s').
    apply consumed_app.
  - left. rewrite consumed_app. exact Hn.
Qed.

Lemma findall_from_sound (fuel : nat) (s : text) :
  Forall signed_decimal (findall_from fuel number_pattern s).
Proof.
  revert s; induction fuel as [|fuel IH]; intros s; cbn [findall_from];
    [constructor|].
  destruct (rmatch number_pattern s no_captures) as [|[rest c] l] eqn:E.
  - destruct s; [constructor | apply IH].
  - assert (Hs : signed_decimal (consumed s rest)).
    { apply (number_pattern_sound s no_captures rest c). rewrite E.
      left. reflexivity. }
    destruct (consumed s rest) as [|x found] eqn:Ec.
    + destruct s; constructor; auto.
    + constructor; auto.
Qed.

Lemma float_of_signed (t : text) :
  signed_decimal t ->
  exists q, float_of_text t = Ok (PyFloat q)
            /\ match t with
               | "-"%char :: _ => (q <= 0)%Q
               | _ => (0 <= q)%Q
               end.
Proof.
  intros [Hu | (u & -> & Hu)].
  - destruct (float_of_unsigned_decimal t Hu) as (q & Hq & Hq0).
    exists q. split; [exact Hq|].
    destruct t as [|x t]; [exact Hq0|].
    assert (Hx : is_digit x = true).
    { unfold unsigned_decimal in Hu. simpl in Hu.
      destruct (is_digit x); [reflexivity|discriminate]. }
    destruct x as [[] [] [] [] [] [] [] []]; try exact Hq0;
      vm_compute in Hx; discriminate.
  - destruct (float_of_unsigned_decimal u Hu) as (q & Hq & Hq0).
    destruct u as [|x u]; [discriminate|].
    assert (Hx : is_digit x = true).
    { unfold unsigned_decimal in Hu. simpl in Hu.
      destruct (is_digit x); [reflexivity|discriminate]. }
    rewrite float_of_text_digit in Hq by exact Hx.
    exists (- q)%Q. split.
    + unfold float_of_text.
      destruct (unsigned_float (x :: u)) as [q'|]; [|discriminate].
      injection Hq as ->. reflexivity.
    + apply (Qopp_le_compat 0 q) in Hq0. exact Hq0.
Qed.

End ExtractNumbers.

Section ExtractFacts.

Import Shape BaseParser Notions.

(** The bound on the number of start positions is never reached: any
    larger bound gives the same matches. *)
Lemma findall_from_enough (r : regex) (fuel : nat) :
  forall fuel' s,
    (length s < fuel)%nat -> (length s < fuel')%nat ->
    findall_from fuel r s = findall_from fuel' r s.
Proof.
  induction fuel as [|fuel IH]; intros fuel' s H H'; [lia|].
  destruct fuel' as [|fuel']; [lia|]. cbn [findall_from].
  destruct (rmatch r s no_captures) as [|[rest c] l] eqn:E.
  - destruct s as [|x s]; [reflexivity|]. simpl in *. apply IH; lia.
  - assert (Hin : In (rest, c) (rmatch r s no_captures))
      by (rewrite E; left; reflexivity).
    destruct (rmatch_suffix _ _ _ _ _ Hin) as (t & ->).
    rewrite consumed_app.
    destruct t as [|y t].
    + destruct rest as [|x rest]; [reflexivity|]. simpl in *.
      f_equal. apply IH; lia.
    + f_equal. simpl in *. rewrite length_app in *. apply IH; lia.
Qed.

Lemma floats_of_signed (ts : list text) :
  Forall signed_decimal ts ->
  exists qs,
    floats_of ts = Ok (map PyFloat qs)
    /\ Forall2 (fun t q => match t with
                           | "-"%char :: _ => (q <= 0)%Q
                           | _ => (0 <= q)%Q
                           end) ts qs.
Proof.
  induction 1 as [|t ts Ht _ (qs & IH1 & IH2)].
  - exists []. split; [reflexivity | constructor].
  - destruct (float_of_signed t Ht) as (q & Hq & Hsign).
    exists (q :: qs). simpl. rewrite Hq. simpl. rewrite IH1. simpl.
    split; [reflexivity|]. constructor; assumption.
Qed.

End ExtractFacts.

(** X29: [_extract_numbers] never fails: every match of its pattern is an
    unsigned decimal, possibly after a minus sign, and is converted to a
    float, which is negative or zero when the match begins with the minus
    sign and positive or zero otherwise. *)
Theorem X29_extract_numbers_signed (s : string) :
  Forall Notions.signed_decimal
    (BaseParser.findall BaseParser.number_pattern (of_string s))
  /\ exists qs,
       BaseParser._extract_numbers s = Ok (map PyFloat qs)
       /\ Forall2 (fun t q => match t with
                              | "-"%char :: _ => (q <= 0)%Q
                              | _ => (0 <= q)%Q
                              end)
            (BaseParser.findall BaseParser.number_pattern (of_string s)) qs.
Proof.
  pose proof (findall_from_sound (S (length (of_string s))) (of_string s))
    as H.
  split; [exact H|]. apply floats_of_signed. exact H.
Qed.
